(** * ElementAgent for React: element capture and component-tree walk

  A shallow embedding of the extraction engine of the extension:
  - the content script (selector synthesis, ancestor walks, attribute and
    style sampling, descriptor assembly, the request for component data);
  - the function the background worker injects into the page (the walk over
    the rendering library's fiber chain and the props sanitizer);
  - the capture script of the DevTools panel (the same algorithms, copied).

  Conventions of the embedding.
  - A JS string is a [string]; its characters are 8-bit code units.
  - [null] and [undefined] in an optional field are both [None].
  - A JS object used as a dictionary ([attrs], [styles], [safe], a props
    record) is a [gmap string _].
  - The DOM is a store of elements addressed by node references, with the
    [parentElement] and [children] links the code follows; identity of nodes
    ([===], [indexOf]) is equality of references.
  - A [while] loop over the store is a fixpoint on a fuel argument that keeps
    the guard of the source. Where the guard bounds the number of turns (15
    parts, 8 ancestors, 10 attempts) the fuel is that bound and more fuel gives
    the same result; the loop of [getUniqueSelector] has no bound, and running
    out of fuel there is [None].
  - The fiber chain is a finite linked structure; the walk over it recurses
    on the chain and keeps its guard [depth < 30]. *)

From Stdlib Require Import ZArith Ascii String DecimalString.
From Stdlib Require DecimalNat.
From stdpp Require Import base option list strings gmap fin_maps.

Set Warnings "-register-all".
Local Open Scope Z_scope.
Local Open Scope nat_scope.

(** ** JavaScript strings and values *)

Module JS.

(** Truthiness of a string: every string but the empty one. *)
Definition truthy (s : string) : bool :=
  match s with EmptyString => false | String _ _ => true end.

(** Truthiness of a string that may be [null]. *)
Definition truthyO (o : option string) : bool :=
  match o with Some s => truthy s | None => false end.

(** [a || b] on strings that may be [null]. *)
Definition orElse (a b : option string) : option string :=
  if truthyO a then a else b.

(** [a || b] on numbers that may be absent: [0] is falsy. *)
Definition orElseZ (a : option Z) (b : option Z) : option Z :=
  match a with
  | Some n => if Z.eqb n 0 then b else Some n
  | None => b
  end.

(** [s.startsWith(p)] *)
Definition startsWith (s p : string) : bool := String.prefix p s.

(** [s.includes(needle)] *)
Fixpoint includes (s needle : string) : bool :=
  String.prefix needle s ||
  match s with
  | EmptyString => false
  | String _ rest => includes rest needle
  end.

Definition isUpper (c : ascii) : bool :=
  (65 <=? nat_of_ascii c) && (nat_of_ascii c <=? 90).

(** [/^[A-Z]/.test(s)] *)
Definition startsUpper (s : string) : bool :=
  match s with
  | EmptyString => false
  | String c _ => isUpper c
  end.

Definition lowerChar (c : ascii) : ascii :=
  if isUpper c then ascii_of_nat (nat_of_ascii c + 32) else c.

(** [s.toLowerCase()] *)
Fixpoint toLowerCase (s : string) : string :=
  match s with
  | EmptyString => EmptyString
  | String c rest => String (lowerChar c) (toLowerCase rest)
  end.

(** [s.slice(0, n)] *)
Fixpoint slice0 (n : nat) (s : string) : string :=
  match n, s with
  | S n', String c rest => String c (slice0 n' rest)
  | _, _ => EmptyString
  end.

Fixpoint trimStart (s : string) : string :=
  match s with
  | String c rest => if Ascii.is_space c then trimStart rest else s
  | EmptyString => EmptyString
  end.

(** [s.trim()] *)
Definition trim (s : string) : string :=
  String.rev (trimStart (String.rev (trimStart s))).

(** [s.split(/\s+/).filter(Boolean)] *)
Definition splitWords (s : string) : list string := String.words s.

(** [parts.join(sep)] *)
Fixpoint join (sep : string) (parts : list string) : string :=
  match parts with
  | [] => EmptyString
  | [p] => p
  | p :: rest => p +:+ sep +:+ join sep rest
  end.

(** Decimal rendering of an integer, as string concatenation does it. *)
Definition ofZ (z : Z) : string := NilZero.string_of_int (Z.to_int z).
Definition ofNat (n : nat) : string := NilZero.string_of_uint (Nat.to_uint n).

(** [l.indexOf(x)]: the position of the first occurrence, [-1] if none. *)
Fixpoint indexOfFrom (i : Z) (l : list nat) (x : nat) : Z :=
  match l with
  | [] => (-1)%Z
  | y :: rest => if bool_decide (y = x) then i else indexOfFrom (i + 1)%Z rest x
  end.
Definition indexOf (l : list nat) (x : nat) : Z := indexOfFrom 0%Z l x.

(** The double quote character, as a one-character string. *)
Definition dquote : string := String (ascii_of_nat 34) EmptyString.

(** The values a props record can hold, as far as [typeof], [Array.isArray]
    and the comparisons with [null] and [undefined] tell them apart. *)
Inductive Value :=
| VUndefined
| VNull
| VBoolean (b : bool)
| VNumber (n : Z)
| VString (s : string)
| VFunction
| VArray (items : list Value)
| VObject (fields : list (string * Value)).

(** [Object.keys(o)] of an object used as a dictionary. *)
Definition keys {V} (o : gmap string V) : list string := (map_to_list o).*1.

End JS.

(** ** The fiber chain of the rendering library *)

Module Fiber.

(** A function or class used as a component type: [displayName] and [name]. *)
Record NamedFn := {
  fn_displayName : option string;
  fn_name : option string
}.

(** An object used as a component type (forwardRef, memo, context...). *)
Record TypeObject := {
  obj_displayName : option string;
  obj_render : option NamedFn;
  obj_typeof : option string;   (* [$$typeof.toString()], when [$$typeof] is set *)
  obj_type : option NamedFn
}.

Inductive FiberType :=
| TypeAbsent                      (* [null] or [undefined] *)
| TypeFunction (fn : NamedFn)
| TypeObject_ (obj : TypeObject)
| TypeString (tag : string).

(** [fiber._debugSource] as the development build attaches it. *)
Record RawSource := {
  raw_fileName : option string;
  raw_lineNumber : option Z;
  raw_columnNumber : option Z
}.

Inductive t := mk {
  type : FiberType;
  _debugSource : option RawSource;
  memoizedProps : option (gmap string JS.Value);
  return_ : option t
}.

End Fiber.

(** ** The document *)

Module Dom.

Definition Node := nat.

Record Element := {
  nodeName : string;
  attributes : list (string * string);     (* [element.attributes], in order *)
  className : option string;               (* [None]: not a string (SVG) *)
  innerText : option string;
  innerHTML : string;
  parentElement : option Node;
  children : list Node;
  computedStyle : string → string;         (* [getPropertyValue] *)
  expando : list (string * Fiber.t)        (* enumerable keys holding an object *)
}.

Record Document := {
  element : Node → Element;
  body : Node
}.

(** [el.getAttribute(name)] *)
Fixpoint lookupAttr (attrs : list (string * string)) (name : string) : option string :=
  match attrs with
  | [] => None
  | (n, v) :: rest => if String.eqb n name then Some v else lookupAttr rest name
  end.
Definition getAttribute (el : Element) (name : string) : option string :=
  lookupAttr (attributes el) name.

(** [el.id]: the reflected attribute, the empty string when it is not set. *)
Definition id (el : Element) : string := default EmptyString (getAttribute el "id").

(** [el.tagName] *)
Definition tagName (el : Element) : string := nodeName el.

(** [className && typeof className === 'string' ? className.split(/\s+/).filter(Boolean) : []] *)
Definition classList (el : Element) : list string :=
  match className el with
  | Some s => if JS.truthy s then JS.splitWords s else []
  | None => []
  end.

(** [getAttribute('data-testid') || getAttribute('data-test-id')] *)
Definition testIdOf (el : Element) : option string :=
  JS.orElse (getAttribute el "data-testid") (getAttribute el "data-test-id").

End Dom.

(** ** The result of the component-tree walk *)

Module ReactInfo.

(** [{ fileName, lineNumber, columnNumber }] as [getDebugSource] builds it. *)
Record DebugSource := {
  fileName : string;
  lineNumber : Z;
  columnNumber : option Z
}.

(** An entry of [componentStack]: [{ name, source }]. *)
Record StackEntry := {
  stack_name : string;
  stack_source : option DebugSource
}.

(** The object the injected function returns and the content script reads:
    each field may be missing. *)
Record t := {
  hasReact : option bool;
  componentName : option string;
  sourceFile : option string;
  sourceLine : option Z;
  sourceColumn : option Z;
  props : option (gmap string JS.Value);
  componentHierarchy : option (list string);
  fullReactTree : option (list string);
  componentStack : option (list StackEntry);
  error : option string
}.

(** The empty object [{}]. *)
Definition empty : t := {|
  hasReact := None; componentName := None; sourceFile := None;
  sourceLine := None; sourceColumn := None; props := None;
  componentHierarchy := None; fullReactTree := None;
  componentStack := None; error := None
|}.

(** [{ error: message }] *)
Definition failed (message : string) : t := {|
  hasReact := None; componentName := None; sourceFile := None;
  sourceLine := None; sourceColumn := None; props := None;
  componentHierarchy := None; fullReactTree := None;
  componentStack := None; error := Some message
|}.

(** [{ hasReact: false }] *)
Definition noReact : t := {|
  hasReact := Some false; componentName := None; sourceFile := None;
  sourceLine := None; sourceColumn := None; props := None;
  componentHierarchy := None; fullReactTree := None;
  componentStack := None; error := None
|}.

End ReactInfo.

(** ** The background worker: the function injected into the page
    ([chrome.scripting.executeScript], handler of [GET_REACT_INFO]) *)

Module Background.
Import JS Fiber Dom.

(** The page the function runs in: the document and [document.querySelector]. *)
Record Page := {
  document : Document;
  querySelector : string → option Node
}.

Definition isFiberKey (key : string) : bool :=
  startsWith key "__reactFiber$" || startsWith key "__reactInternalInstance$".

(** [for (const key in element) if (...) return element[key]] *)
Fixpoint firstFiberKey (keys : list (string * Fiber.t)) : option Fiber.t :=
  match keys with
  | [] => None
  | (key, value) :: rest => if isFiberKey key then Some value else firstFiberKey rest
  end.

Definition getReactFiber (d : Document) (element : option Node) : option Fiber.t :=
  match element with
  | None => None
  | Some e => firstFiberKey (expando (Dom.element d e))
  end.

Definition getDebugSource (fiber : Fiber.t) : option ReactInfo.DebugSource :=
  match _debugSource fiber with
  | Some source =>
      match raw_fileName source with
      | Some file =>
          if truthy file
          then Some {| ReactInfo.fileName := file;
                       ReactInfo.lineNumber := default 0%Z (raw_lineNumber source);
                       ReactInfo.columnNumber := raw_columnNumber source |}
          else None
      | None => None
      end
  | None => None
  end.

(** [fn.displayName || fn.name || fallback] *)
Definition fnLabel (fn : NamedFn) (fallback : option string) : option string :=
  orElse (orElse (fn_displayName fn) (fn_name fn)) fallback.

Definition getComponentDisplayName (fiber : Fiber.t) : option string :=
  match type fiber with
  | TypeAbsent => None
  | TypeFunction fn => fnLabel fn None
  | TypeObject_ obj =>
      if truthyO (obj_displayName obj) then obj_displayName obj
      else
        match obj_render obj with
        | Some render => fnLabel render None
        | None =>
            match obj_typeof obj with
            | Some typeStr =>
                if includes typeStr "forward_ref" then
                  if truthyO (obj_displayName obj) then obj_displayName obj
                  else Some "ForwardRef"
                else if includes typeStr "memo" then
                  if truthyO (obj_displayName obj) then obj_displayName obj
                  else
                    match obj_type obj with
                    | Some inner => fnLabel inner (Some "Memo")
                    | None => Some "Memo"
                    end
                else None
            | None => None
            end
        end
  | TypeString tag => if truthy tag then Some tag else None
  end.

Definition skip : list string := ["children"; "ref"; "key"; "__self"; "__source"].

(** One turn of [for (const key in props)]: the effect on [safe]. *)
Definition safeStep (key : string) (value : Value) (safe : gmap string Value)
  : gmap string Value :=
  if bool_decide (key ∈ skip) then safe
  else
    match value with
    | VFunction => <[key := VString "[Function]"]> safe
    | VArray items =>
        <[key := VString ("[Array(" +:+ ofNat (length items) +:+ ")]")]> safe
    | VObject _ => <[key := VString "[Object]"]> safe
    | VString s =>
        if 100 <? String.length s
        then <[key := VString (slice0 100 s +:+ "...")]> safe
        else <[key := value]> safe
    | VUndefined => safe
    | VNull | VBoolean _ | VNumber _ => <[key := value]> safe
    end.

(** The object [safe] when the loop over [props] ends. *)
Definition safeOf (props : gmap string Value) : gmap string Value :=
  map_fold safeStep ∅ props.

Definition getSafeProps (fiber : Fiber.t) : option (gmap string Value) :=
  match memoizedProps fiber with
  | None => None
  | Some props =>
      let safe := safeOf props in
      if 0 <? length (keys safe) then Some safe else None
  end.

(** An entry of [tree]. *)
Record Hop := {
  name : string;
  source : option ReactInfo.DebugSource;
  props : option (gmap string Value);
  isUserComponent : bool
}.

(** [name && !name.startsWith('_') && name !== 'Fragment'], for a name that is
    not null. *)
Definition keeps (name : string) : bool :=
  truthy name && negb (startsWith name "_") && negb (String.eqb name "Fragment").

(** The body of the walk at one fiber: what it appends to [tree]. *)
Definition visit (fiber : Fiber.t) (depth : nat) (tree : list Hop) : list Hop :=
  match getComponentDisplayName fiber with
  | Some name =>
      if keeps name
      then tree ++ [ {| name := name;
                        source := getDebugSource fiber;
                        props := if depth <? 5 then getSafeProps fiber else None;
                        isUserComponent := startsUpper name |} ]
      else tree
  | None => tree
  end.

(** [while (fiber && depth < 30) { ...; fiber = fiber.return; depth++ }],
    from a fiber that is not null. The result is the state at the exit:
    [depth] and [tree]. *)
Fixpoint walkFrom (fiber : Fiber.t) (depth : nat) (tree : list Hop) : nat * list Hop :=
  if depth <? 30 then
    match return_ fiber with
    | Some parent => walkFrom parent (S depth) (visit fiber depth tree)
    | None => (S depth, visit fiber depth tree)
    end
  else (depth, tree).

Definition walk (fiber : option Fiber.t) (depth : nat) (tree : list Hop) : nat * list Hop :=
  match fiber with
  | Some f => walkFrom f depth tree
  | None => (depth, tree)
  end.

(** [while (parent && !fiber && attempts < 10) { fiber = getReactFiber(parent);
    parent = parent.parentElement; attempts++ }]. Each turn adds one to
    [attempts]; [fuel] is the number of turns allowed. *)
Fixpoint ancestorFiber (fuel : nat) (d : Document) (parent : option Node)
    (fiber : option Fiber.t) (attempts : nat) : option Fiber.t :=
  match fuel with
  | 0 => fiber
  | S fuel' =>
      match parent, fiber with
      | Some p, None =>
          if attempts <? 10
          then ancestorFiber fuel' d (parentElement (element d p))
                 (getReactFiber d (Some p)) (S attempts)
          else fiber
      | _, _ => fiber
      end
  end.

(** The fiber of the element, or of one of its first ancestors. *)
Definition locateFiber (d : Document) (element : Node) : option Fiber.t :=
  match getReactFiber d (Some element) with
  | Some fiber => Some fiber
  | None => ancestorFiber 10 d (parentElement (Dom.element d element)) None 0
  end.

Definition stackEntry (c : Hop) : ReactInfo.StackEntry :=
  {| ReactInfo.stack_name := name c; ReactInfo.stack_source := source c |}.

(** The object returned once the walk is over. *)
Definition summarize (tree : list Hop) : ReactInfo.t :=
  let userComponents : list Hop := filter (λ c, isUserComponent c = true) tree in
  let firstComponent : option Hop := head userComponents in
  let firstSource : option ReactInfo.DebugSource :=
    match firstComponent with Some c => source c | None => None end in
  {| ReactInfo.hasReact := Some true;
     ReactInfo.componentName := orElse (option_map name firstComponent) None;
     ReactInfo.sourceFile := orElse (option_map ReactInfo.fileName firstSource) None;
     ReactInfo.sourceLine := orElseZ (option_map ReactInfo.lineNumber firstSource) None;
     ReactInfo.sourceColumn :=
       orElseZ (match firstSource with
                | Some s => ReactInfo.columnNumber s
                | None => None
                end) None;
     ReactInfo.props := match firstComponent with Some c => props c | None => None end;
     ReactInfo.componentHierarchy := Some (map name userComponents);
     ReactInfo.fullReactTree := Some (map name tree);
     ReactInfo.componentStack := Some (map stackEntry (take 10 userComponents));
     ReactInfo.error := None |}.

(** The injected function: [func: (selector) => { ... }]. *)
Definition reactInfoFunc (page : Page) (selector : string) : ReactInfo.t :=
  match querySelector page selector with
  | None => ReactInfo.failed "Element not found"
  | Some element =>
      match locateFiber (document page) element with
      | None => ReactInfo.noReact
      | Some fiber => summarize (walk (Some fiber) 0 []).2
      end
  end.

(** What [executeScript] settles to. *)
Inductive ScriptOutcome :=
| ScriptResolved (results : list (option ReactInfo.t))   (* [results[i].result] *)
| ScriptRejected (message : string).

(** The object passed to [sendResponse]. *)
Record Response := {
  result : option ReactInfo.t;
  response_error : option string
}.

(** The handler of [GET_REACT_INFO]: what it sends back. *)
Definition onGetReactInfo (tabId : option nat) (script : ScriptOutcome) : Response :=
  match tabId with
  | None | Some 0 => {| result := None; response_error := Some "No tab ID" |}
  | Some _ =>
      match script with
      | ScriptResolved results =>
          {| result := Some (default ReactInfo.empty (mjoin (head results)));
             response_error := None |}
      | ScriptRejected message =>
          {| result := None; response_error := Some message |}
      end
  end.

End Background.

(** ** The content script: selectors, ancestor walks, samplers, assembly *)

Module Content.
Import JS Dom.

(** The first half of the body of the loop of [getFullDomPath]: the tag with
    the id, else the test id, else the first two classes. *)
Definition domPathLabel (el : Element) : string :=
  let part := toLowerCase (nodeName el) in
  let id := getAttribute el "id" in
  let testId := testIdOf el in
  let classes := classList el in
  if truthyO id then part +:+ "#" +:+ default EmptyString id
  else if truthyO testId
    then part +:+ "[data-testid='" +:+ default EmptyString testId +:+ "']"
  else if 0 <? length classes then part +:+ "." +:+ join "." (take 2 classes)
  else part.

(** The token of one node in [getFullDomPath]: the label, then the position
    among the children of the parent that have the same node name. *)
Definition domPathPart (d : Document) (current : Node) : string :=
  let el := element d current in
  let part := domPathLabel el in
  match parentElement el with
  | Some parent =>
      let siblings :=
        filter (λ c, nodeName (element d c) = nodeName el) (children (element d parent)) in
      if 1 <? length siblings
      then part +:+ ":nth-of-type(" +:+ ofZ (indexOf siblings current + 1) +:+ ")"
      else part
  | None => part
  end.

(** [while (current && current !== document.body && parts.length < 15)].
    Each turn adds one part, so [fuel] turns are enough when
    [15 <= fuel + parts.length]. *)
Fixpoint getFullDomPath_loop (fuel : nat) (d : Document) (current : option Node)
    (parts : list string) : list string :=
  match fuel with
  | 0 => parts
  | S fuel' =>
      match current with
      | Some c =>
          if bool_decide (c ≠ body d) && (length parts <? 15)
          then getFullDomPath_loop fuel' d (parentElement (element d c))
                 (domPathPart d c :: parts)
          else parts
      | None => parts
      end
  end.

(** The array [parts] when the loop ends. *)
Definition getFullDomPath_parts (d : Document) (node : Node) : list string :=
  getFullDomPath_loop 15 d (Some node) [].

Definition getFullDomPath (d : Document) (node : Node) : string :=
  join " > " (getFullDomPath_parts d node).

(** The token of one node in the loop of [getUniqueSelector]. *)
Definition selectorPart (d : Document) (current : Node) : string :=
  let el := element d current in
  let selector := toLowerCase (tagName el) in
  if truthy (id el) then "#" +:+ id el
  else
    match parentElement el with
    | Some parentEl =>
        let siblings :=
          filter (λ c, tagName (element d c) = tagName el) (children (element d parentEl)) in
        if 1 <? length siblings
        then selector +:+ ":nth-of-type(" +:+ ofZ (indexOf siblings current + 1) +:+ ")"
        else selector
    | None => selector
    end.

(** [while (current && current !== document.body)], with the [break] at a node
    that has an id. The loop has no bound of its own: [None] when [fuel] turns
    do not end it. *)
Fixpoint getUniqueSelector_loop (fuel : nat) (d : Document) (current : option Node)
    (path : list string) : option (list string) :=
  match current with
  | Some c =>
      if bool_decide (c ≠ body d) then
        match fuel with
        | 0 => None
        | S fuel' =>
            if truthy (id (element d c)) then Some (selectorPart d c :: path)
            else getUniqueSelector_loop fuel' d (parentElement (element d c))
                   (selectorPart d c :: path)
        end
      else Some path
  | None => Some path
  end.

Definition getUniqueSelector (fuel : nat) (d : Document) (el : Node) : option string :=
  if truthy (id (element d el)) then Some ("#" +:+ id (element d el))
  else
    let testId := testIdOf (element d el) in
    if truthyO testId
    then Some ("[data-testid=" +:+ dquote +:+ default EmptyString testId +:+ dquote +:+ "]")
    else option_map (join " > ") (getUniqueSelector_loop fuel d (Some el) []).

(** An entry of [parentChain]. *)
Record ParentEntry := {
  entry_tag : string;
  entry_id : option string;
  entry_classes : option (list string);
  entry_testId : option string
}.

(** The record pushed for one ancestor. *)
Definition parentEntry (d : Document) (current : Node) : ParentEntry :=
  let el := element d current in
  let classes := classList el in
  {| entry_tag := toLowerCase (nodeName el);
     entry_id := orElse (getAttribute el "id") None;
     entry_classes := if 0 <? length classes then Some classes else None;
     entry_testId := orElse (testIdOf el) None |}.

(** [while (current && current !== document.body && depth < maxDepth)].
    Each turn adds one to [depth]. The result is [depth] and [chain] at the
    exit. *)
Fixpoint getParentChain_loop (fuel : nat) (d : Document) (maxDepth : nat)
    (current : option Node) (depth : nat) (chain : list ParentEntry)
    : nat * list ParentEntry :=
  match fuel with
  | 0 => (depth, chain)
  | S fuel' =>
      match current with
      | Some c =>
          if bool_decide (c ≠ body d) && (depth <? maxDepth)
          then getParentChain_loop fuel' d maxDepth (parentElement (element d c))
                 (S depth) (chain ++ [parentEntry d c])
          else (depth, chain)
      | None => (depth, chain)
      end
  end.

Definition getParentChain_upTo (maxDepth : nat) (d : Document) (node : Node)
  : list ParentEntry :=
  (getParentChain_loop maxDepth d maxDepth (parentElement (element d node)) 0 []).2.

(** [getParentChain(node)] with the default [maxDepth = 8]. *)
Definition getParentChain (d : Document) (node : Node) : list ParentEntry :=
  getParentChain_upTo 8 d node.

(** One turn of [for (const attr of element.attributes)]. *)
Definition attrStep (attrs : gmap string string) (attr : string * string)
  : gmap string string :=
  if negb (startsWith attr.1 "__react") && negb (startsWith attr.1 "data-element-agent")
  then <[attr.1 := slice0 200 attr.2]> attrs
  else attrs.

Definition getAllAttributes (el : Element) : gmap string string :=
  foldl attrStep ∅ (attributes el).

Definition relevant : list string :=
  [ "display"; "position"; "flex-direction"; "justify-content"; "align-items";
    "width"; "height"; "padding"; "margin"; "background-color"; "color";
    "font-size"; "font-weight"; "border"; "border-radius"; "opacity"; "visibility" ].

(** One turn of [for (const prop of relevant)]. *)
Definition styleStep (computed : string → string) (styles : gmap string string)
    (prop : string) : gmap string string :=
  let val := computed prop in
  if truthy val && negb (String.eqb val "none") && negb (String.eqb val "normal")
     && negb (String.eqb val "auto") && negb (String.eqb val "0px")
  then <[prop := val]> styles
  else styles.

Definition getRelevantStyles (el : Element) : gmap string string :=
  foldl (styleStep (computedStyle el)) ∅ relevant.

(** [Object.keys(o).length > 0 ? o : undefined] *)
Definition nonEmptyObject {V} (o : gmap string V) : option (gmap string V) :=
  if 0 <? length (keys o) then Some o else None.

(** [l.length > 0 ? l : undefined] *)
Definition nonEmptyArray {A} (l : list A) : option (list A) :=
  if 0 <? length l then Some l else None.

Record ElementMeta := {
  tag : string;
  text : string;
  innerHTML : option string;
  componentName : option string;
  componentHierarchy : option (list string);
  fullReactTree : option (list string);
  testId : option string;
  allClasses : option (list string);
  allAttributes : option (gmap string string);
  computedStyles : option (gmap string string);
  domPath : option string;
  parentChain : option (list ParentEntry);
  siblingIndex : option Z;
  childCount : option nat;
  sourceFile : option string;
  sourceLine : option Z;
  sourceColumn : option Z;
  componentStack : option (list ReactInfo.StackEntry);
  props : option (gmap string Value);
  displayName : option string
}.

Record ElementInfo := {
  selector : string;
  meta : ElementMeta
}.

(** The state of a promise. *)
Inductive Promise (A : Type) :=
| Pending
| Fulfilled (value : A)
| Rejected (reason : string).
Arguments Pending {A}.
Arguments Fulfilled {A} value.
Arguments Rejected {A} reason.

(** [resolve(value)]: settles a pending promise, does nothing to a settled one. *)
Definition resolve {A} (value : A) (p : Promise A) : Promise A :=
  match p with
  | Pending => Fulfilled value
  | _ => p
  end.

(** How [chrome.runtime.sendMessage] calls its callback back: with
    [chrome.runtime.lastError] set (no receiver, closed port), or with the
    response of the receiver. *)
Inductive Answer :=
| LastError (message : string)
| Delivered (response : option Background.Response).

(** What a call of [chrome.runtime.sendMessage] does: it throws at the call
    (the context of the extension is gone), it returns and the callback is
    never called, or it returns and the callback is called. *)
Inductive Transport :=
| Throws (reason : string)
| Silent
| Calls (answer : Answer).

(** The callback given to [sendMessage], acting on the promise. *)
Definition onResponse (outcome : Answer) (p : Promise ReactInfo.t)
  : Promise ReactInfo.t :=
  match outcome with
  | LastError _ => resolve ReactInfo.empty p
  | Delivered response =>
      resolve (default ReactInfo.empty
                 (match response with
                  | Some r => Background.result r
                  | None => None
                  end)) p
  end.

(** [new Promise((resolve) => chrome.runtime.sendMessage(msg, callback))]:
    the executor has no [reject] and catches nothing, so a call that throws
    rejects the promise, as the promise constructor does for an executor that
    throws; [runtime] is the transport, from the selector of the message to
    what the call does. *)
Definition getReactInfoFromBackground (runtime : string → Transport) (selector : string)
  : Promise ReactInfo.t :=
  match runtime selector with
  | Throws reason => Rejected reason
  | Silent => Pending
  | Calls answer => onResponse answer Pending
  end.

(** The descriptor built once the component data [reactInfo] has arrived. *)
Definition assemble (d : Document) (el : Node) (reactInfo : ReactInfo.t) : ElementInfo :=
  let e := element d el in
  let testId := testIdOf e in
  let allClasses := classList e in
  let allAttributes := getAllAttributes e in
  let computedStyles := getRelevantStyles e in
  let parentChain := getParentChain d el in
  let siblingIndex :=
    match parentElement e with
    | Some parent => indexOf (children (element d parent)) el
    | None => 0%Z
    end in
  {| selector := getFullDomPath d el;
     meta := {|
       tag := toLowerCase (tagName e);
       text := slice0 200 (trim (default EmptyString (innerText e)));
       innerHTML := Some (slice0 500 (Dom.innerHTML e));
       componentName := orElse (ReactInfo.componentName reactInfo) None;
       displayName := orElse (ReactInfo.componentName reactInfo) None;
       componentHierarchy := ReactInfo.componentHierarchy reactInfo;
       fullReactTree := ReactInfo.fullReactTree reactInfo;
       testId := orElse testId None;
       allClasses := nonEmptyArray allClasses;
       allAttributes := nonEmptyObject allAttributes;
       computedStyles := nonEmptyObject computedStyles;
       domPath := Some (getFullDomPath d el);
       parentChain := nonEmptyArray parentChain;
       siblingIndex := Some siblingIndex;
       childCount := Some (length (children e));
       sourceFile := orElse (ReactInfo.sourceFile reactInfo) None;
       sourceLine := orElseZ (ReactInfo.sourceLine reactInfo) None;
       sourceColumn := orElseZ (ReactInfo.sourceColumn reactInfo) None;
       componentStack := ReactInfo.componentStack reactInfo;
       props := ReactInfo.props reactInfo
     |}
  |}.

(** [async function getElementInfo(el)]. A selector walk that does not end
    leaves the promise pending; the [await] passes a rejection of the request
    on. *)
Definition getElementInfo (fuel : nat) (d : Document) (runtime : string → Transport)
    (el : Node) : Promise ElementInfo :=
  match getUniqueSelector fuel d el with
  | None => Pending
  | Some selector =>
      match getReactInfoFromBackground runtime selector with
      | Fulfilled reactInfo => Fulfilled (assemble d el reactInfo)
      | Rejected reason => Rejected reason
      | Pending => Pending
      end
  end.

(** The transport when the background worker answers for the tab [tabId] and
    the injected function runs to its end in [page]. *)
Definition extension (page : Background.Page) (tabId : option nat) (selector : string)
  : Transport :=
  Calls (Delivered (Some (Background.onGetReactInfo tabId
    (Background.ScriptResolved [Some (Background.reactInfoFunc page selector)])))).

End Content.

(** ** The DevTools panel: [ELEMENT_CAPTURE_SCRIPT], evaluated on [$0] *)

Module Panel.
Import JS Fiber Dom.

(** The script carries its own copies of the two ancestor walks and of the
    style sampler; their text is the content script's. *)
Definition getFullDomPath : Document → Node → string := Content.getFullDomPath.
Definition getParentChain : Document → Node → list Content.ParentEntry :=
  Content.getParentChain.
Definition getRelevantStyles : Element → gmap string string := Content.getRelevantStyles.

Definition getReactFiber (d : Document) (element : Node) : option Fiber.t :=
  Background.firstFiberKey (expando (Dom.element d element)).

Definition getDebugSource : Fiber.t → option ReactInfo.DebugSource :=
  Background.getDebugSource.

Definition getComponentDisplayName (fiber : Fiber.t) : option string :=
  match type fiber with
  | TypeAbsent => None
  | TypeFunction fn => Background.fnLabel fn None
  | TypeObject_ obj =>
      if truthyO (obj_displayName obj) then obj_displayName obj
      else
        match obj_render obj with
        | Some render => Background.fnLabel render None
        | None => None
        end
  | TypeString tag => if truthy tag then Some tag else None
  end.

(** One turn of [for (const [k, v] of Object.entries(props))]. *)
Definition safeStep (k : string) (v : Value) (safe : gmap string Value)
  : gmap string Value :=
  if bool_decide (k ∈ Background.skip) then safe
  else
    match v with
    | VFunction => <[k := VString "[Function]"]> safe
    | VArray items => <[k := VString ("[Array(" +:+ ofNat (length items) +:+ ")]")]> safe
    | VObject _ => <[k := VString "[Object]"]> safe
    | VString s =>
        if 100 <? String.length s
        then <[k := VString (slice0 100 s +:+ "...")]> safe
        else <[k := v]> safe
    | VUndefined | VNull | VBoolean _ | VNumber _ => <[k := v]> safe
    end.

Definition getSafeProps (fiber : Fiber.t) : option (gmap string Value) :=
  match memoizedProps fiber with
  | None => None
  | Some props =>
      let safe := map_fold safeStep ∅ props in
      if 0 <? length (keys safe) then Some safe else None
  end.

(** An entry of [tree]: [{ name, source, props }]. *)
Record Hop := {
  name : string;
  source : option ReactInfo.DebugSource;
  props : option (gmap string Value)
}.

Definition visit (fiber : Fiber.t) (depth : nat) (tree : list Hop) : list Hop :=
  match getComponentDisplayName fiber with
  | Some name =>
      if Background.keeps name
      then tree ++ [ {| name := name;
                        source := getDebugSource fiber;
                        props := if depth <? 5 then getSafeProps fiber else None |} ]
      else tree
  | None => tree
  end.

(** [while (fiber && depth < maxDepth)] from a fiber that is not null. *)
Fixpoint walkFrom (maxDepth : nat) (fiber : Fiber.t) (depth : nat) (tree : list Hop)
  : list Hop :=
  if depth <? maxDepth then
    match return_ fiber with
    | Some parent => walkFrom maxDepth parent (S depth) (visit fiber depth tree)
    | None => visit fiber depth tree
    end
  else tree.

(** [getFullReactTreeWithSources(element)] with the default [maxDepth = 30]. *)
Definition getFullReactTreeWithSources (d : Document) (element : Node) : list Hop :=
  let fiber :=
    match getReactFiber d element with
    | Some fiber => Some fiber
    | None =>
        Background.ancestorFiber 10 d (parentElement (Dom.element d element)) None 0
    end in
  match fiber with
  | None => []
  | Some fiber => walkFrom 30 fiber 0 []
  end.

(** One turn of [for (const attr of element.attributes || [])]. *)
Definition attrStep (attrs : gmap string string) (attr : string * string)
  : gmap string string :=
  if negb (startsWith attr.1 "__react")
  then <[attr.1 := slice0 200 attr.2]> attrs
  else attrs.

Definition getAllAttributes (el : Element) : gmap string string :=
  foldl attrStep ∅ (attributes el).

Definition stackEntry (c : Hop) : ReactInfo.StackEntry :=
  {| ReactInfo.stack_name := name c; ReactInfo.stack_source := source c |}.

(** The value of the script: [null] when nothing is selected ([$0] is null). *)
Definition capture (d : Document) (selected : option Node) : option Content.ElementInfo :=
  match selected with
  | None => None
  | Some el =>
      let e := element d el in
      let reactTreeWithSources := getFullReactTreeWithSources d el in
      let users := filter (λ c, startsUpper (name c) = true) reactTreeWithSources in
      let componentHierarchy := map name users in
      let fullReactTree := map name reactTreeWithSources in
      let firstComponent := head users in
      let firstSource :=
        match firstComponent with Some c => source c | None => None end in
      let componentName := orElse (option_map name firstComponent) None in
      let sourceFile := option_map ReactInfo.fileName firstSource in
      let sourceLine := option_map ReactInfo.lineNumber firstSource in
      let sourceColumn :=
        match firstSource with Some s => ReactInfo.columnNumber s | None => None end in
      let props := match firstComponent with Some c => props c | None => None end in
      let componentStack := map stackEntry (take 10 users) in
      let testId := testIdOf e in
      let allClasses := classList e in
      let allAttributes := getAllAttributes e in
      let computedStyles := getRelevantStyles e in
      let parentChain := getParentChain d el in
      let siblingIndex :=
        match parentElement e with
        | Some parent => indexOf (children (element d parent)) el
        | None => 0%Z
        end in
      Some {|
        Content.selector := getFullDomPath d el;
        Content.meta := {|
          Content.tag := toLowerCase (tagName e);
          Content.text := slice0 200 (trim (default EmptyString (innerText e)));
          Content.innerHTML := Some (slice0 500 (Dom.innerHTML e));
          Content.componentName := orElse componentName None;
          Content.displayName := orElse componentName None;
          Content.componentHierarchy := Content.nonEmptyArray componentHierarchy;
          Content.fullReactTree := Content.nonEmptyArray fullReactTree;
          Content.testId := orElse testId None;
          Content.allClasses := Content.nonEmptyArray allClasses;
          Content.allAttributes := Content.nonEmptyObject allAttributes;
          Content.computedStyles := Content.nonEmptyObject computedStyles;
          Content.domPath := Some (getFullDomPath d el);
          Content.parentChain := Content.nonEmptyArray parentChain;
          Content.siblingIndex := Some siblingIndex;
          Content.childCount := Some (length (children e));
          Content.sourceFile := orElse sourceFile None;
          Content.sourceLine := orElseZ sourceLine None;
          Content.sourceColumn := orElseZ sourceColumn None;
          Content.componentStack := Content.nonEmptyArray componentStack;
          Content.props := props
        |}
      |}
  end.

End Panel.

(** ** More of JavaScript: splitting, searching and parsing strings *)

Module Text.
Import JS.

(** [s.split(sep)] for a separator of one character. *)
Fixpoint split (sep : ascii) (s : string) : list string :=
  match s with
  | EmptyString => [EmptyString]
  | String c rest =>
      if Ascii.eqb c sep then EmptyString :: split sep rest
      else
        match split sep rest with
        | part :: parts => String c part :: parts
        | [] => [String c EmptyString]
        end
  end.

(** [l.findIndex(p)]: the position of the first element that satisfies [p],
    [-1] if none does. *)
Fixpoint findIndexFrom {A} (i : Z) (p : A → bool) (l : list A) : Z :=
  match l with
  | [] => (-1)%Z
  | x :: rest => if p x then i else findIndexFrom (i + 1)%Z p rest
  end.
Definition findIndex {A} (p : A → bool) (l : list A) : Z := findIndexFrom 0%Z p l.

(** [l.slice(-n)]: the last [n] elements, all of them when there are fewer. *)
Definition sliceLast {A} (n : nat) (l : list A) : list A := drop (length l - n) l.

(** [l.slice(i)] for an index that is not negative. *)
Definition sliceFrom {A} (i : Z) (l : list A) : list A := drop (Z.to_nat i) l.

(** The value of a decimal digit. *)
Definition digitValue (c : ascii) : option Z :=
  let n := nat_of_ascii c in
  if (48 <=? n) && (n <=? 57) then Some (Z.of_nat (n - 48)) else None.

(** The value of the longest prefix of [s] made of decimal digits, read on
    from [acc]; [None] when no digit has been read. *)
Fixpoint parseDigits (acc : option Z) (s : string) : option Z :=
  match s with
  | EmptyString => acc
  | String c rest =>
      match digitValue c with
      | Some v => parseDigits (Some (10 * default 0%Z acc + v)%Z) rest
      | None => acc
      end
  end.

(** The numbers met here: [NaN], the infinities, and the finite doubles that
    are integers ([0] and [-0] are one value, as they are for a [Map] key and
    for truthiness). *)
Inductive Number :=
| NaN
| Infinite (negative : bool)
| Finite (z : Z).

#[global] Instance Number_eq_dec : EqDecision Number.
Proof. solve_decision. Defined.

#[global] Instance Number_countable : Countable Number.
Proof.
  refine (inj_countable'
            (λ n, match n with
                  | NaN => inl ()
                  | Infinite negative => inr (inl negative)
                  | Finite z => inr (inr z)
                  end)
            (λ c, match c with
                  | inl _ => NaN
                  | inr (inl negative) => Infinite negative
                  | inr (inr z) => Finite z
                  end) _).
  now intros [].
Defined.

(** The double an integer is stored as: the integer itself when 53 bits hold
    it, and otherwise the nearest integer with a significand of 53 bits, a tie
    going to the even significand; an infinity from [2^1024] on. *)
Definition toDouble (z : Z) : Number :=
  let a := Z.abs z in
  let dropped := (Z.log2 a - 52)%Z in
  if (dropped <=? 0)%Z then Finite z
  else
    let q := Z.shiftr a dropped in
    let r := (a - Z.shiftl q dropped)%Z in
    let half := Z.shiftl 1 (dropped - 1) in
    let q' := if (half <? r)%Z || ((r =? half)%Z && Z.odd q) then (q + 1)%Z else q in
    let m := Z.shiftl q' dropped in
    if (Z.shiftl 1 1024 <=? m)%Z then Infinite (z <? 0)%Z
    else Finite (Z.sgn z * m)%Z.

(** [parseInt(s, 10)]: leading white space is skipped, a sign is read, then
    the longest run of digits, and the result is the double nearest to the
    integer they write; [NaN] when there is no digit. The argument [None] is
    [undefined], which reads as [NaN]. *)
Definition parseInt10 (s : option string) : Number :=
  match s with
  | None => NaN
  | Some s =>
      match trimStart s with
      | String "-" rest =>
          from_option (λ z, toDouble (- z)) NaN (parseDigits None rest)
      | String "+" rest => from_option toDouble NaN (parseDigits None rest)
      | digits => from_option toDouble NaN (parseDigits None digits)
      end
  end.

End Text.

(** ** The content script: the source path shown in the tooltip *)

Module Tooltip.
Import JS Text.

Definition isSourceRoot (p : string) : bool :=
  String.eqb p "src" || String.eqb p "app" || String.eqb p "components"
  || String.eqb p "pages".

Definition formatSourcePath (fileName : string) : string :=
  let parts := split "/" fileName in
  let srcIndex := findIndex isSourceRoot parts in
  if (0 <=? srcIndex)%Z then join "/" (sliceFrom srcIndex parts)
  else join "/" (sliceLast 3 parts).

End Tooltip.

(** ** The background worker: the registry of DevTools ports *)

Module Registry.
Import JS Text.

(** A port: its name and its identity. *)
Record Port := {
  name : string;
  ident : nat
}.

(** [parseInt(port.name.split('-')[1], 10)] *)
Definition tabIdOf (port : Port) : Number :=
  parseInt10 (split "-" (name port) !! 1).

Definition isDevtools (port : Port) : bool := startsWith (name port) "devtools-".

(** The listener of [chrome.runtime.onConnect], on [devtoolsPorts]. *)
Definition onConnect (port : Port) (ports : gmap Number Port) : gmap Number Port :=
  if isDevtools port then <[tabIdOf port := port]> ports else ports.

(** The listener of [port.onDisconnect] that [onConnect] installs on a
    DevTools port; other ports have none. *)
Definition onDisconnect (port : Port) (ports : gmap Number Port)
  : gmap Number Port :=
  if isDevtools port then delete (tabIdOf port) ports else ports.

(** What the listener of [port.onMessage] does. *)
Inductive Effect :=
| SendToTab (tabId : Number) (type : string)
| PostError (port : Port) (error : string).

(** The listener of [port.onMessage] of a DevTools port; [lastError] tells
    whether [chrome.tabs.sendMessage] calls back with an error. *)
Definition onPortMessage (port : Port) (type : string) (lastError : bool) : list Effect :=
  if isDevtools port
     && (String.eqb type "START_PICKER" || String.eqb type "STOP_PICKER")
  then SendToTab (tabIdOf port) type
       :: (if lastError
           then [PostError port "Content script not ready. Try refreshing the page."]
           else [])
  else [].

(** [if (tabId)] for a number: [0] and [NaN] are falsy. *)
Definition truthyTab (tabId : Number) : bool :=
  match tabId with
  | Finite z => negb (Z.eqb z 0)
  | Infinite _ => true
  | NaN => false
  end.

(** The handler of [ELEMENT_PICKED] and [PICKER_CANCELLED]: the registry
    afterwards and the port the message was posted to, if any. [senderTab] is
    [sender.tab?.id], [None] when it is [undefined]; [postThrows] tells
    whether [postMessage] on a port throws. The handler then answers
    [{ ok: true }]. *)
Definition onPicked (senderTab : option Number) (postThrows : Port → bool)
    (ports : gmap Number Port) : gmap Number Port * option Port :=
  match senderTab with
  | Some tabId =>
      if truthyTab tabId then
        match ports !! tabId with
        | Some port =>
            if postThrows port then (delete tabId ports, None)
            else (ports, Some port)
        | None => (ports, None)
        end
      else (ports, None)
  | None => (ports, None)
  end.

End Registry.

(** ** The DevTools panel: the application around the capture script *)

Module PanelApp.
Import JS Text.

(** [`devtools-${tabId}`], the name the panel connects with, for a tab id
    below [2^53]: such an id is a number as it stands and is written in plain
    decimal. *)
Definition portName (tabId : nat) : string := "devtools-" +:+ ofNat tabId.

(** [c] is matched by [[a-z0-9]]. *)
Definition isLowerAlnum (c : ascii) : bool :=
  let n := nat_of_ascii c in
  ((97 <=? n) && (n <=? 122)) || ((48 <=? n) && (n <=? 57)).

(** [s.replace(/[^a-z0-9]+/g, '-')]: every maximal run of characters that
    are not in [a-z0-9] is replaced by one dash. [inRun] tells that the
    character before [s] belongs to such a run. *)
Fixpoint replaceRuns (inRun : bool) (s : string) : string :=
  match s with
  | EmptyString => EmptyString
  | String c rest =>
      if isLowerAlnum c then String c (replaceRuns false rest)
      else if inRun then replaceRuns true rest
      else String "-" (replaceRuns true rest)
  end.

(** What [sendToAgent] puts after [element-agent/] in [branchName] when the
    PR has a title:
    [formatted.toLowerCase().replace(/[^a-z0-9]+/g, '-').slice(0, 40)],
    where [formatted] is the title, put into the title format if there is
    one. *)
Definition branchSlug (formatted : string) : string :=
  slice0 40 (replaceRuns false (toLowerCase formatted)).

End PanelApp.

(** ** Documents, pages and fiber chains used as examples *)

Module Scenario.
Import JS Fiber Dom.

(** An element with a node name, attributes, a parent and children, and
    nothing else of interest. *)
Definition plain (name : string) (attrs : list (string * string))
    (parent : option Node) (kids : list Node) : Element :=
  {| nodeName := name; attributes := attrs; className := Some EmptyString;
     innerText := Some EmptyString; innerHTML := EmptyString;
     parentElement := parent; children := kids;
     computedStyle := λ _, EmptyString; expando := [] |}.

Definition withText (txt : string) (el : Element) : Element :=
  {| nodeName := nodeName el; attributes := attributes el; className := className el;
     innerText := Some txt; innerHTML := txt;
     parentElement := parentElement el; children := children el;
     computedStyle := computedStyle el; expando := expando el |}.

Definition withFiber (key : string) (fiber : Fiber.t) (el : Element) : Element :=
  {| nodeName := nodeName el; attributes := attributes el; className := className el;
     innerText := innerText el; innerHTML := Dom.innerHTML el;
     parentElement := parentElement el; children := children el;
     computedStyle := computedStyle el; expando := [(key, fiber)] |}.

(** Scenario A: [<html><body><button id=save-btn>Save</button></body></html>],
    no fiber link anywhere. Nodes: 0 is [html], 1 is [body], 2 is the button. *)
Definition docA : Document :=
  {| element := λ n,
       match n with
       | 0 => plain "HTML" [] None [1]
       | 1 => plain "BODY" [] (Some 0) [2]
       | 2 => withText "Save" (plain "BUTTON" [("id", "save-btn")] (Some 1) [])
       | _ => plain "DIV" [] None []
       end;
     body := 1 |}.

Definition buttonA : Node := 2.

Definition pageA : Background.Page :=
  {| Background.document := docA;
     Background.querySelector := λ s, if String.eqb s "#save-btn" then Some buttonA else None |}.

(** A list: [<body><ul><li/><li id=second><span/></li><li/></ul></body>].
    Nodes: 0 [html], 1 [body], 2 [ul], 3 4 5 the [li], 6 the [span]. *)
Definition docList : Document :=
  {| element := λ n,
       match n with
       | 0 => plain "HTML" [] None [1]
       | 1 => plain "BODY" [] (Some 0) [2]
       | 2 => plain "UL" [] (Some 1) [3; 4; 5]
       | 3 => plain "LI" [] (Some 2) []
       | 4 => plain "LI" [("id", "second")] (Some 2) [6]
       | 5 => plain "LI" [] (Some 2) []
       | 6 => plain "SPAN" [] (Some 4) []
       | _ => plain "DIV" [] None []
       end;
     body := 1 |}.

(** The same list with no id on the second item. *)
Definition docListPlain : Document :=
  {| element := λ n,
       match n with
       | 0 => plain "HTML" [] None [1]
       | 1 => plain "BODY" [] (Some 0) [2]
       | 2 => plain "UL" [] (Some 1) [3; 4; 5]
       | 3 => plain "LI" [] (Some 2) []
       | 4 => plain "LI" [] (Some 2) [6]
       | 5 => plain "LI" [] (Some 2) []
       | 6 => plain "SPAN" [] (Some 4) []
       | _ => plain "DIV" [] None []
       end;
     body := 1 |}.

(** An unbounded chain of nested [div] under [body]: node [n + 2] is the
    child of node [n + 1]; node 1 is [body], node 0 is [html]. *)
Definition docDeep : Document :=
  {| element := λ n,
       match n with
       | 0 => plain "HTML" [] None [1]
       | 1 => plain "BODY" [] (Some 0) [2]
       | S m => plain "DIV" [] (Some m) [S (S m)]
       end;
     body := 1 |}.

(** A store whose parent links form a cycle: every node is its own parent. *)
Definition docLoop : Document :=
  {| element := λ n, plain "DIV" [] (Some n) [n]; body := 0 |}.

Definition namedFn (n : string) : FiberType :=
  TypeFunction {| fn_displayName := None; fn_name := Some n |}.

Definition fiberOf (ty : FiberType) (parent : option Fiber.t) : Fiber.t :=
  {| type := ty; _debugSource := None; memoizedProps := None; return_ := parent |}.

(** Scenario B: the chain [div -> Icon -> Button -> Toolbar]. *)
Definition toolbarB : Fiber.t :=
  {| type := namedFn "Toolbar";
     _debugSource := Some {| raw_fileName := Some "/app/src/Toolbar.tsx";
                             raw_lineNumber := Some 12%Z; raw_columnNumber := Some 5%Z |};
     memoizedProps := None; return_ := None |}.
Definition buttonB : Fiber.t :=
  {| type := namedFn "Button";
     _debugSource := Some {| raw_fileName := Some "/app/src/Button.tsx";
                             raw_lineNumber := Some 40%Z; raw_columnNumber := None |};
     memoizedProps := Some {[ "label" := VString "Save"; "onClick" := VFunction ]};
     return_ := Some toolbarB |}.
Definition iconB : Fiber.t :=
  {| type := namedFn "Icon";
     _debugSource := Some {| raw_fileName := Some "/app/src/Icon.tsx";
                             raw_lineNumber := Some 7%Z; raw_columnNumber := Some 3%Z |};
     memoizedProps := Some {[ "size" := VNumber 16%Z ]};
     return_ := Some buttonB |}.
Definition divB : Fiber.t := fiberOf (TypeString "div") (Some iconB).

(** A page whose selected node carries the chain of scenario B. *)
Definition docB : Document :=
  {| element := λ n,
       match n with
       | 0 => plain "HTML" [] None [1]
       | 1 => plain "BODY" [] (Some 0) [2]
       | 2 => withFiber "__reactFiber$abc123" divB (plain "DIV" [] (Some 1) [])
       | _ => plain "DIV" [] None []
       end;
     body := 1 |}.

Definition pageB : Background.Page :=
  {| Background.document := docB;
     Background.querySelector := λ s, if String.eqb s "div" then Some 2 else None |}.

(** A chain of [n] more host fibers above [top]. *)
Fixpoint hostChain (n : nat) (top : option Fiber.t) : option Fiber.t :=
  match n with
  | 0 => top
  | S n' => Some (fiberOf (TypeString "div") (hostChain n' top))
  end.

(** A chain whose names the walk drops: an anonymous function, an internal
    name, a fragment, under a component. *)
Definition hiddenChain : Fiber.t :=
  fiberOf (TypeFunction {| fn_displayName := None; fn_name := Some EmptyString |})
    (Some (fiberOf (namedFn "_internal")
      (Some (fiberOf (namedFn "Fragment")
        (Some (fiberOf (namedFn "App") None)))))).

(** A string of 150 characters. *)
Definition longString : string :=
  String.concat EmptyString (repeat "abcde" 30).

(** A props record with a value of each kind. *)
Definition propsAll : gmap string Value :=
  {[ "onClick" := VFunction;
     "items" := VArray [VNumber 1%Z; VNumber 2%Z; VNumber 3%Z];
     "style" := VObject [("color", VString "red")];
     "title" := VString longString;
     "label" := VString "Save";
     "count" := VNumber 3%Z;
     "disabled" := VBoolean false;
     "icon" := VNull;
     "tooltip" := VUndefined;
     "children" := VString "text";
     "key" := VString "k1" ]}.

(** A props record whose only value is [undefined]. *)
Definition propsUndefined : gmap string Value := {[ "tooltip" := VUndefined ]}.

(** An element with an attribute of the extension and a long attribute. *)
Definition marked : Element :=
  plain "DIV"
    [ ("data-element-agent-id", "7");
      ("__reactProps", "x");
      ("title", String.concat EmptyString (repeat "abcde" 50)) ] None [].

(** An element whose only attribute is one of the extension, under [body]. *)
Definition markedOnly : Element :=
  plain "DIV" [ ("data-element-agent-id", "7") ] (Some 1) [].

Definition docMarked : Document :=
  {| element := λ n,
       match n with
       | 0 => plain "HTML" [] None [1]
       | 1 => plain "BODY" [] (Some 0) [2]
       | 2 => markedOnly
       | _ => plain "DIV" [] None []
       end;
     body := 1 |}.

Definition fiberWithProps (props : gmap string Value) : Fiber.t :=
  {| type := namedFn "Button"; _debugSource := None;
     memoizedProps := Some props; return_ := None |}.

(** The chain of parents of node 6 of [docList] ends in 3 steps. *)
Definition spanOfList : Node := 6.

End Scenario.

(** ** Vocabulary of the statements *)

Module Spec.
Import JS Fiber Dom.

(** A fiber followed by the fibers its [return] links lead to. *)
Fixpoint chain (f : Fiber.t) : list Fiber.t :=
  f :: match return_ f with
       | Some parent => chain parent
       | None => []
       end.

(** [upward d n nodes]: [nodes] starts at [n] and each node is followed by
    its [parentElement]. *)
Inductive upward (d : Document) : Node → list Node → Prop :=
| upward_last n : upward d n [n]
| upward_step n p rest :
    parentElement (element d n) = Some p →
    upward d p rest →
    upward d n (n :: rest).

(** A name the walk keeps: not empty, no leading underscore, not the
    fragment marker. *)
Definition kept (name : string) : Prop :=
  name ≠ EmptyString ∧ startsWith name "_" = false ∧ name ≠ "Fragment".

(** The fibers of [fibers] visited in turn, the first at [depth]. *)
Fixpoint visitAll (fibers : list Fiber.t) (depth : nat) (tree : list Background.Hop)
  : list Background.Hop :=
  match fibers with
  | [] => tree
  | f :: rest => visitAll rest (S depth) (Background.visit f depth tree)
  end.

(** The names a list of derived names leaves in the tree. *)
Definition retained (derived : option string) : list string :=
  match derived with
  | Some name => if Background.keeps name then [name] else []
  | None => []
  end.

(** The entry the walk is to make for a fiber: none when no name is derived
    or the name is not retained, and otherwise the derived name, the debug
    source of the fiber and the user-component mark of the name, with the
    sanitized props of the fiber when [withProps] is set and with no props
    otherwise. *)
Definition entry (withProps : bool) (f : Fiber.t) : list Background.Hop :=
  match Background.getComponentDisplayName f with
  | Some n =>
      if Background.keeps n
      then [ {| Background.name := n;
                Background.source := Background.getDebugSource f;
                Background.props :=
                  if withProps then Background.getSafeProps f else None;
                Background.isUserComponent := startsUpper n |} ]
      else []
  | None => []
  end.

(** What holds of every entry of the tree. *)
Definition wellFormedHop (hop : Background.Hop) : Prop :=
  kept (Background.name hop)
  ∧ Background.isUserComponent hop = startsUpper (Background.name hop)
  ∧ ∀ s, Background.source hop = Some s → truthy (ReactInfo.fileName s) = true.

(** The chain of parents from [current] ends, at a missing parent or at the
    body, within [k] steps. *)
Fixpoint endsWithin (k : nat) (d : Document) (current : option Node) : Prop :=
  match current with
  | None => True
  | Some c =>
      c = body d
      ∨ match k with
        | 0 => False
        | S k' => endsWithin k' d (parentElement (element d c))
        end
  end.

(** What [getSafeProps] stores for a value, if it stores anything. *)
Definition sanitized (value : Value) : option Value :=
  match value with
  | VFunction => Some (VString "[Function]")
  | VArray items => Some (VString ("[Array(" +:+ ofNat (length items) +:+ ")]"))
  | VObject _ => Some (VString "[Object]")
  | VString s =>
      if 100 <? String.length s then Some (VString (slice0 100 s +:+ "..."))
      else Some value
  | VUndefined => None
  | VNull | VBoolean _ | VNumber _ => Some value
  end.

(** The attribute names the content script leaves out. *)
Definition excluded (name : string) : bool :=
  startsWith name "__react" || startsWith name "data-element-agent".

(** [s] ends with [suffix]. *)
Definition endsWith (s suffix : string) : Prop := ∃ front, s = front +:+ suffix.

(** The children of [parent] with the node name of [n], in document order. *)
Definition sameTagChildren (d : Document) (parent n : Node) : list Node :=
  filter (λ c, nodeName (element d c) = nodeName (element d n)) (children (element d parent)).

(** The node the walk would look at after [visited], starting at [current]. *)
Definition nextAfter (d : Document) (current : option Node) (visited : list Node)
  : option Node :=
  match last visited with
  | Some top => parentElement (element d top)
  | None => current
  end.

(** A computed value the style sampler keeps: not empty and none of the four
    defaults. *)
Definition informative (val : string) : Prop :=
  val ≠ EmptyString ∧ val ≠ "none" ∧ val ≠ "normal" ∧ val ≠ "auto" ∧ val ≠ "0px".

(** The [k]-th [parentElement] of a node; the node itself for [k = 0]. *)
Fixpoint ancestor (d : Document) (k : nat) (n : Node) : option Node :=
  match k with
  | 0 => Some n
  | S k' =>
      match parentElement (element d n) with
      | Some p => ancestor d k' p
      | None => None
      end
  end.

(** The bounds and the absent-when-empty fields that both capture paths
    share. *)
Definition compact (el : Element) (m : Content.ElementMeta) : Prop :=
  String.length (Content.text m) ≤ 200
  ∧ (∃ html rest, Content.innerHTML m = Some html ∧ String.length html ≤ 500
                  ∧ Dom.innerHTML el = html +:+ rest)
  ∧ toLowerCase (Content.tag m) = Content.tag m
  ∧ Content.testId m ≠ Some EmptyString
  ∧ Content.allClasses m ≠ Some []
  ∧ Content.allAttributes m ≠ Some ∅
  ∧ Content.computedStyles m ≠ Some ∅
  ∧ Content.parentChain m ≠ Some []
  ∧ Content.componentName m ≠ Some EmptyString
  ∧ Content.displayName m = Content.componentName m
  ∧ Content.sourceFile m ≠ Some EmptyString
  ∧ Content.sourceLine m ≠ Some 0%Z
  ∧ Content.sourceColumn m ≠ Some 0%Z
  ∧ Content.childCount m = Some (length (children el)).

(** [c] occurs in [s]. *)
Fixpoint hasChar (c : ascii) (s : string) : bool :=
  match s with
  | EmptyString => false
  | String c' rest => Ascii.eqb c' c || hasChar c rest
  end.

(** The fiber link of a node: the value of its first fiber key. *)
Definition fiberOfNode (d : Document) (n : Node) : option Fiber.t :=
  Background.firstFiberKey (expando (element d n)).

(** Every character of [s] satisfies [p]. *)
Fixpoint allChars (p : ascii → bool) (s : string) : bool :=
  match s with
  | EmptyString => true
  | String c rest => p c && allChars p rest
  end.

Definition isDash (c : ascii) : bool := Ascii.eqb c "-".

Definition startsDash (s : string) : bool :=
  match s with
  | EmptyString => false
  | String c _ => isDash c
  end.

(** No dash of [s] is followed by a dash. *)
Fixpoint noDoubleDash (s : string) : bool :=
  match s with
  | EmptyString => true
  | String c rest => negb (isDash c && startsDash rest) && noDoubleDash rest
  end.

(** The characters a branch slug is made of. *)
Definition slugChar (c : ascii) : bool := PanelApp.isLowerAlnum c || isDash c.

End Spec.

(** * Properties *)

Section JSStrings.
Import JS.

Lemma slice0_length n s : String.length (slice0 n s) = Nat.min n (String.length s).
Proof.
  revert s. induction n as [|n IH]; intros [|c s]; simpl; try reflexivity.
  now rewrite IH.
Qed.

Lemma slice0_prefix n s : ∃ rest, s = slice0 n s +:+ rest.
Proof.
  revert s. induction n as [|n IH]; intros s.
  - exists s. now destruct s.
  - destruct s as [|c s]; [now exists EmptyString|].
    destruct (IH s) as [rest Hrest]. exists rest.
    change (String c s = String c (slice0 n s +:+ rest)). now f_equal.
Qed.

Lemma truthy_spec s : truthy s = true ↔ s ≠ EmptyString.
Proof. destruct s; simpl; split; congruence. Qed.

End JSStrings.

Section Selector.
Import JS Dom Content Scenario.

Lemma getUniqueSelector_id fuel d el :
  truthy (id (element d el)) = true →
  getUniqueSelector fuel d el = Some ("#" +:+ id (element d el)).
Proof. intros H. unfold getUniqueSelector. now rewrite H. Qed.

Lemma getReactInfoFromBackground_resolves runtime selector answer :
  runtime selector = Calls answer →
  ∃ reactInfo, getReactInfoFromBackground runtime selector = Fulfilled reactInfo.
Proof.
  intros Hcalls. unfold getReactInfoFromBackground, onResponse. rewrite Hcalls.
  destruct answer; simpl; eauto.
Qed.

Lemma getUniqueSelector_loop_total d k : ∀ current path,
  Spec.endsWithin k d current → ∃ r, getUniqueSelector_loop k d current path = Some r.
Proof.
  induction k as [|k IH]; intros [c|] path Hends; simpl in *; eauto.
  - case_bool_decide; [|eauto]. now destruct Hends.
  - case_bool_decide as Hbody; [|eauto].
    destruct (truthy (id (element d c))); [eauto|].
    apply IH. now destruct Hends.
Qed.

Lemma getUniqueSelector_total d k el :
  Spec.endsWithin k d (Some el) → ∃ requested, getUniqueSelector k d el = Some requested.
Proof.
  intros Hends. unfold getUniqueSelector.
  destruct (getUniqueSelector_loop_total d k (Some el) [] Hends) as [r Hr].
  destruct (truthy (id (element d el))); [eauto|].
  destruct (truthyO (testIdOf (element d el))); [eauto|].
  rewrite Hr. simpl. eauto.
Qed.

(** X5. On a store whose chain of parents from the node ends (at a missing
    parent or at the body) within [k] steps, [k] turns of the selector walk
    are enough: [getUniqueSelector] returns a selector, and the promise of
    [getElementInfo] follows the transport of the request for that selector.
    It is fulfilled with a descriptor when the callback is called, however it
    is called; it is rejected when [sendMessage] throws; it stays pending
    when the callback is never called. *)
Lemma getElementInfo_settles d k runtime el :
  Spec.endsWithin k d (Some el) →
  ∃ requested,
    getUniqueSelector k d el = Some requested
    ∧ match runtime requested with
      | Calls _ =>
          ∃ reactInfo,
            getElementInfo k d runtime el = Fulfilled (assemble d el reactInfo)
      | Throws reason => getElementInfo k d runtime el = Rejected reason
      | Silent => getElementInfo k d runtime el = Pending
      end.
Proof.
  intros Hends. destruct (getUniqueSelector_total d k el Hends) as [requested Hsel].
  exists requested. split; [exact Hsel|].
  unfold getElementInfo. rewrite Hsel.
  destruct (runtime requested) as [reason| |answer] eqn:Hrun.
  - unfold getReactInfoFromBackground. now rewrite Hrun.
  - unfold getReactInfoFromBackground. now rewrite Hrun.
  - destruct (getReactInfoFromBackground_resolves runtime requested answer Hrun)
      as [reactInfo ->].
    now exists reactInfo.
Qed.

(** C1, as the code has it. For every node with a non-empty id the selector
    synthesizer [getUniqueSelector], whose result goes with the request for
    component data, is [#id] exactly, and the descriptor is assembled once
    the callback of the request is called; the [selector] field of the
    descriptor is the DOM path of the node. In
    scenario A the request selector is [#save-btn], the injected function
    answers [hasReact = false], and the descriptor has selector
    [button#save-btn], tag [button], text [Save] and no component name. *)
Theorem request_selector_of_identified_node (fuel : nat) (d : Document) (el : Node) :
  truthy (id (element d el)) = true →
  getUniqueSelector fuel d el = Some ("#" +:+ id (element d el))
  ∧ (∀ runtime answer,
        runtime ("#" +:+ id (element d el)) = Calls answer →
        ∃ reactInfo,
          getElementInfo fuel d runtime el = Fulfilled (assemble d el reactInfo))
  ∧ (∀ reactInfo, selector (assemble d el reactInfo) = getFullDomPath d el)
  ∧ getUniqueSelector fuel docA buttonA = Some "#save-btn"
  ∧ ReactInfo.hasReact (Background.reactInfoFunc pageA "#save-btn") = Some false
  ∧ ∃ info,
      getElementInfo fuel docA (extension pageA (Some 1)) buttonA = Fulfilled info
      ∧ selector info = "button#save-btn"
      ∧ tag (meta info) = "button"
      ∧ text (meta info) = "Save"
      ∧ componentName (meta info) = None.
Proof.
  intros Hid. split; [now apply getUniqueSelector_id|].
  split.
  { intros runtime answer Hcalls.
    unfold getElementInfo. rewrite (getUniqueSelector_id _ _ _ Hid).
    destruct (getReactInfoFromBackground_resolves runtime _ answer Hcalls)
      as [reactInfo ->].
    now exists reactInfo. }
  split; [reflexivity|].
  split; [reflexivity|].
  split; [reflexivity|].
  eexists. split; [reflexivity|]. now vm_compute.
Qed.

Lemma request_selector_of_identified_node_witness :
  getUniqueSelector 0 docList 4 = Some "#second"
  ∧ ∃ info,
      getElementInfo 0 docA (extension pageA (Some 1)) buttonA = Fulfilled info
      ∧ selector info = "button#save-btn".
Proof.
  destruct (request_selector_of_identified_node 0 docList 4 eq_refl)
    as (Hsel & _ & _ & _ & _ & info & Hinfo & Hselector & _).
  split; [exact Hsel|]. exists info. now split.
Defined.

(** C1, as the specification words it, fails: the descriptor returned for the
    button of scenario A has the DOM path [button#save-btn] as its selector,
    not [#save-btn]. *)
Lemma descriptor_selector_of_identified_node :
  ∃ info,
    getElementInfo 0 docA (extension pageA (Some 1)) buttonA = Fulfilled info
    ∧ id (element docA buttonA) = "save-btn"
    ∧ selector info = "button#save-btn"
    ∧ selector info ≠ "#" +:+ id (element docA buttonA).
Proof.
  eexists. split; [reflexivity|]. split; [reflexivity|]. split; [reflexivity|].
  vm_compute. discriminate.
Qed.

End Selector.

Section Transport.
Import JS Dom Content Scenario.

(** C4, as the code has it. The request for component data follows what
    [sendMessage] does. Whenever the callback is called (with an error or a
    missing receiver, with no response, with a response that carries only an
    error, with a response that has a result) the promise of
    [getReactInfoFromBackground] is fulfilled; in each failure it is fulfilled
    with the empty object, and the background handler answers a missing tab
    and a failed injection with such an error-carrying response. The
    descriptor is assembled from the value the promise is fulfilled with, and
    the one assembled from the empty object has every component field absent.
    The promise is rejected exactly when the call of [sendMessage] throws, and
    it stays pending exactly when the callback is never called. *)
Theorem request_fulfilled_when_called_back
    (runtime : string → Transport) (selector : string) :
  (∀ reason, getReactInfoFromBackground runtime selector = Rejected reason
             ↔ runtime selector = Throws reason)
  ∧ (getReactInfoFromBackground runtime selector = Pending
     ↔ runtime selector = Silent)
  ∧ (∀ answer, runtime selector = Calls answer →
       ∃ reactInfo,
         getReactInfoFromBackground runtime selector = Fulfilled reactInfo
         ∧ (∀ fuel d el, getUniqueSelector fuel d el = Some selector →
              getElementInfo fuel d runtime el = Fulfilled (assemble d el reactInfo))
         ∧ (∀ message, answer = LastError message → reactInfo = ReactInfo.empty)
         ∧ (answer = Delivered None → reactInfo = ReactInfo.empty)
         ∧ (∀ response, answer = Delivered (Some response) →
              Background.result response = None → reactInfo = ReactInfo.empty)
         ∧ (∀ response info, answer = Delivered (Some response) →
              Background.result response = Some info → reactInfo = info))
  ∧ (∀ script, Background.result (Background.onGetReactInfo None script) = None)
  ∧ (∀ tabId message,
       Background.result
         (Background.onGetReactInfo tabId (Background.ScriptRejected message)) = None)
  ∧ (∀ d el,
       let m := meta (assemble d el ReactInfo.empty) in
       componentName m = None ∧ displayName m = None
       ∧ componentHierarchy m = None ∧ fullReactTree m = None
       ∧ componentStack m = None ∧ sourceFile m = None
       ∧ sourceLine m = None ∧ sourceColumn m = None ∧ props m = None).
Proof.
  assert (Hfulfilled : ∀ answer, ∃ reactInfo,
            onResponse answer Pending = Fulfilled reactInfo).
  { intros [message|[response|]]; simpl; eauto. }
  split.
  { intros reason. unfold getReactInfoFromBackground.
    destruct (runtime selector) as [thrown| |answer]; split; try congruence.
    destruct (Hfulfilled answer) as [reactInfo ->]. discriminate. }
  split.
  { unfold getReactInfoFromBackground.
    destruct (runtime selector) as [thrown| |answer]; split; try congruence.
    destruct (Hfulfilled answer) as [reactInfo ->]. discriminate. }
  split.
  { intros answer Hcalls.
    assert (Hassemble : ∀ reactInfo,
      getReactInfoFromBackground runtime selector = Fulfilled reactInfo →
      ∀ fuel d el, getUniqueSelector fuel d el = Some selector →
        getElementInfo fuel d runtime el = Fulfilled (assemble d el reactInfo)).
    { intros reactInfo Hfull fuel d el Hsel. unfold getElementInfo.
      now rewrite Hsel, Hfull. }
    revert Hassemble. unfold getReactInfoFromBackground. rewrite Hcalls.
    unfold onResponse.
    destruct answer as [message|[response|]]; simpl; intros Hassemble.
    - exists ReactInfo.empty. repeat split; auto; congruence.
    - exists (default ReactInfo.empty (Background.result response)).
      repeat split; auto; try congruence.
      + intros r Hr Hnone. simplify_eq. now rewrite Hnone.
      + intros r info Hr Hsome. simplify_eq. now rewrite Hsome.
    - exists ReactInfo.empty. repeat split; auto; congruence. }
  split; [reflexivity|].
  split; [now intros [[|n]|] message|].
  intros d el. now repeat split.
Qed.

(** C4, as the specification words it, fails: nothing catches a call of
    [sendMessage] that throws, so the promise of the request is rejected, and
    with it the promise of [getElementInfo]; and when the callback is never
    called the promise stays pending. *)
Lemma throwing_sendMessage_rejects :
  getReactInfoFromBackground (λ _, Throws "Extension context invalidated.") "#save-btn"
  = Rejected "Extension context invalidated."
  ∧ getElementInfo 0 docA (λ _, Throws "Extension context invalidated.") buttonA
    = Rejected "Extension context invalidated."
  ∧ getReactInfoFromBackground (λ _, Silent) "#save-btn" = Pending.
Proof. now repeat split. Qed.

(** C10. The [selector] of a descriptor is its [meta.domPath], character for
    character: the content script builds a descriptor whenever its selector
    walk ends and the callback of the request is called, the panel script
    whenever a node is selected, and both fill the two fields with
    [getFullDomPath] of the node. The promise of the content script has no
    descriptor only when the selector walk does not end, when the callback is
    never called, or when [sendMessage] throws. *)
Theorem selector_is_domPath :
  (∀ fuel d runtime el,
     getElementInfo fuel d runtime el = Pending
     ∨ (∃ requested reason,
          getUniqueSelector fuel d el = Some requested
          ∧ runtime requested = Throws reason
          ∧ getElementInfo fuel d runtime el = Rejected reason)
     ∨ ∃ info, getElementInfo fuel d runtime el = Fulfilled info
         ∧ selector info = getFullDomPath d el
         ∧ domPath (meta info) = Some (selector info))
  ∧ (∀ fuel d runtime el requested answer,
       getUniqueSelector fuel d el = Some requested →
       runtime requested = Calls answer →
       ∃ info, getElementInfo fuel d runtime el = Fulfilled info
         ∧ selector info = getFullDomPath d el
         ∧ domPath (meta info) = Some (selector info))
  ∧ (∀ d el,
       ∃ info, Panel.capture d (Some el) = Some info
         ∧ selector info = Panel.getFullDomPath d el
         ∧ domPath (meta info) = Some (selector info)).
Proof.
  assert (Hcalled : ∀ fuel d runtime el requested answer,
    getUniqueSelector fuel d el = Some requested →
    runtime requested = Calls answer →
    ∃ info, getElementInfo fuel d runtime el = Fulfilled info
      ∧ selector info = getFullDomPath d el
      ∧ domPath (meta info) = Some (selector info)).
  { intros fuel d runtime el requested answer Hsel Hcalls.
    unfold getElementInfo. rewrite Hsel.
    destruct (getReactInfoFromBackground_resolves runtime requested answer Hcalls)
      as [reactInfo ->].
    eexists. split; [reflexivity|]. now split. }
  split; [|split].
  - intros fuel d runtime el.
    destruct (getUniqueSelector fuel d el) as [requested|] eqn:Hsel;
      [|left; unfold getElementInfo; now rewrite Hsel].
    destruct (runtime requested) as [reason| |answer] eqn:Hrun.
    + right. left. exists requested, reason. split; [reflexivity|].
      split; [exact Hrun|]. unfold getElementInfo, getReactInfoFromBackground.
      now rewrite Hsel, Hrun.
    + left. unfold getElementInfo, getReactInfoFromBackground.
      now rewrite Hsel, Hrun.
    + right. right. now apply (Hcalled fuel d runtime el requested answer).
  - exact Hcalled.
  - intros d el. eexists. split; [reflexivity|]. now split.
Qed.

End Transport.

Section AncestorWalks.
Import JS Dom Content Spec.

(** The store the walks run over. *)
Context (d : Document).

Lemma nextAfter_cons c p visited :
  parentElement (element d c) = p →
  nextAfter d (Some c) (c :: visited) = nextAfter d p visited.
Proof.
  intros <-. unfold nextAfter. destruct visited as [|v visited]; [reflexivity|].
  rewrite last_cons_cons.
  destruct (last (v :: visited)) eqn:Hlast; [reflexivity|].
  now apply last_None in Hlast.
Qed.

Lemma upward_cons c visited :
  visited = [] ∨ (∃ p, parentElement (element d c) = Some p ∧ upward d p visited) →
  upward d c (c :: visited).
Proof.
  intros [->|(p & Hp & Hup)]; [constructor|]. econstructor; eassumption.
Qed.

Lemma getFullDomPath_loop_spec fuel : ∀ current parts,
  15 ≤ fuel + length parts →
  ∃ visited,
    getFullDomPath_loop fuel d current parts = rev (map (domPathPart d) visited) ++ parts
    ∧ length visited + length parts ≤ Nat.max 15 (length parts)
    ∧ (body d ∉ visited)
    ∧ (visited = [] ∨ ∃ c, current = Some c ∧ upward d c visited)
    ∧ (length visited + length parts < 15 →
       nextAfter d current visited = None ∨ nextAfter d current visited = Some (body d)).
Proof.
  induction fuel as [|fuel IH]; intros current parts Hfuel; simpl.
  - exists []. simpl. repeat split; [lia|apply not_elem_of_nil|now left|lia].
  - destruct current as [c|]; cycle 1.
    { exists []. simpl. repeat split; [lia|apply not_elem_of_nil|now left|now left]. }
    case_bool_decide as Hbody; simpl; cycle 1.
    { exists []. simpl. repeat split; [lia|apply not_elem_of_nil|now left|].
      intros _. right. unfold nextAfter. simpl. f_equal.
      destruct (decide (c = body d)); [assumption|contradiction]. }
    destruct (Nat.ltb_spec (length parts) 15) as [Hlen|Hlen]; cycle 1.
    { exists []. simpl. repeat split; [lia|apply not_elem_of_nil|now left|lia]. }
    destruct (IH (parentElement (element d c)) (domPathPart d c :: parts))
      as (visited & Hres & Hbound & Hnot & Hup & Hstop); [simpl; lia|].
    exists (c :: visited). simpl in *. split.
    { rewrite Hres, <- app_assoc. reflexivity. }
    split; [lia|]. split.
    { apply not_elem_of_cons. split; [congruence|assumption]. }
    split.
    { right. exists c. split; [reflexivity|]. apply upward_cons.
      destruct Hup as [->|(p & Hp & Hup)]; [now left|right; eauto]. }
    intros Hlt. rewrite (nextAfter_cons c _ visited eq_refl). apply Hstop. lia.
Qed.

Lemma getFullDomPath_loop_fuel fuel : ∀ fuel' current parts,
  15 ≤ fuel + length parts → 15 ≤ fuel' + length parts →
  getFullDomPath_loop fuel d current parts = getFullDomPath_loop fuel' d current parts.
Proof.
  induction fuel as [|fuel IH]; intros fuel' current parts H H'.
  - destruct fuel'; simpl; [reflexivity|]. destruct current; [|reflexivity].
    destruct (Nat.ltb_spec (length parts) 15); [simpl in *; lia|].
    now rewrite andb_false_r.
  - destruct fuel' as [|fuel']; simpl.
    + destruct current; [|reflexivity].
      destruct (Nat.ltb_spec (length parts) 15); [simpl in *; lia|].
      now rewrite andb_false_r.
    + destruct current as [c|]; [|reflexivity].
      destruct (bool_decide (c ≠ body d) && (length parts <? 15)) eqn:Hguard;
        [|reflexivity].
      apply andb_true_iff in Hguard as [_ Hlen%Nat.ltb_lt].
      apply IH; simpl; lia.
Qed.

Lemma getParentChain_loop_spec maxDepth fuel : ∀ current depth chain,
  maxDepth ≤ fuel + depth →
  ∃ visited,
    getParentChain_loop fuel d maxDepth current depth chain
      = (depth + length visited, chain ++ map (parentEntry d) visited)
    ∧ length visited + depth ≤ Nat.max maxDepth depth
    ∧ (body d ∉ visited)
    ∧ (visited = [] ∨ ∃ c, current = Some c ∧ upward d c visited)
    ∧ (length visited + depth < maxDepth →
       nextAfter d current visited = None ∨ nextAfter d current visited = Some (body d)).
Proof.
  induction fuel as [|fuel IH]; intros current depth chain Hfuel; simpl.
  - exists []. simpl. rewrite app_nil_r, Nat.add_0_r.
    repeat split; [lia|apply not_elem_of_nil|now left|lia].
  - destruct current as [c|]; cycle 1.
    { exists []. simpl. rewrite app_nil_r, Nat.add_0_r.
      repeat split; [lia|apply not_elem_of_nil|now left|now left]. }
    case_bool_decide as Hbody; simpl; cycle 1.
    { exists []. simpl. rewrite app_nil_r, Nat.add_0_r.
      repeat split; [lia|apply not_elem_of_nil|now left|].
      intros _. right. unfold nextAfter. simpl. f_equal.
      destruct (decide (c = body d)); [assumption|contradiction]. }
    destruct (Nat.ltb_spec depth maxDepth) as [Hlen|Hlen]; cycle 1.
    { exists []. simpl. rewrite app_nil_r, Nat.add_0_r.
      repeat split; [lia|apply not_elem_of_nil|now left|lia]. }
    destruct (IH (parentElement (element d c)) (S depth) (chain ++ [parentEntry d c]))
      as (visited & Hres & Hbound & Hnot & Hup & Hstop); [lia|].
    exists (c :: visited). simpl in *. split.
    { rewrite Hres, <- app_assoc. f_equal. lia. }
    split; [lia|]. split.
    { apply not_elem_of_cons. split; [congruence|assumption]. }
    split.
    { right. exists c. split; [reflexivity|]. apply upward_cons.
      destruct Hup as [->|(p & Hp & Hup)]; [now left|right; eauto]. }
    intros Hlt. rewrite (nextAfter_cons c _ visited eq_refl). apply Hstop. lia.
Qed.

Lemma getParentChain_loop_fuel maxDepth fuel : ∀ fuel' current depth chain,
  maxDepth ≤ fuel + depth → maxDepth ≤ fuel' + depth →
  getParentChain_loop fuel d maxDepth current depth chain
  = getParentChain_loop fuel' d maxDepth current depth chain.
Proof.
  induction fuel as [|fuel IH]; intros fuel' current depth chain H H'.
  - destruct fuel'; simpl; [reflexivity|]. destruct current; [|reflexivity].
    destruct (Nat.ltb_spec depth maxDepth); [simpl in *; lia|].
    now rewrite andb_false_r.
  - destruct fuel' as [|fuel']; simpl.
    + destruct current; [|reflexivity].
      destruct (Nat.ltb_spec depth maxDepth); [simpl in *; lia|].
      now rewrite andb_false_r.
    + destruct current as [c|]; [|reflexivity].
      destruct (bool_decide (c ≠ body d) && (depth <? maxDepth)) eqn:Hguard;
        [|reflexivity].
      apply andb_true_iff in Hguard as [_ Hlen%Nat.ltb_lt].
      apply IH; lia.
Qed.

(** C6. For every node of every store (also one whose parent links form a
    cycle) [domPath] is made of at most 15 parts and [parentChain] has at most
    8 entries. The parts are the tokens of the node and its ancestors, nearest
    last; the entries are the records of the ancestors, nearest first. No
    visited node is the document body, and a walk that ends below its bound
    ends because the next node is missing or is the body. Giving the path
    loop more turns than 15 changes nothing. *)
Theorem ancestor_walks_bounded (node : Node) :
  (∃ visited,
     getFullDomPath_parts d node = rev (map (domPathPart d) visited)
     ∧ getFullDomPath d node = join " > " (rev (map (domPathPart d) visited))
     ∧ length (getFullDomPath_parts d node) ≤ 15
     ∧ (body d ∉ visited)
     ∧ (visited = [] ∨ upward d node visited)
     ∧ (length visited < 15 →
        nextAfter d (Some node) visited = None
        ∨ nextAfter d (Some node) visited = Some (body d))
     ∧ (∀ fuel, 15 ≤ fuel →
        getFullDomPath_loop fuel d (Some node) [] = getFullDomPath_parts d node))
  ∧ (∃ visited,
       getParentChain d node = map (parentEntry d) visited
       ∧ length (getParentChain d node) ≤ 8
       ∧ (body d ∉ visited)
       ∧ (visited = []
          ∨ ∃ parent, parentElement (element d node) = Some parent
                      ∧ upward d parent visited)
       ∧ (length visited < 8 →
          nextAfter d (parentElement (element d node)) visited = None
          ∨ nextAfter d (parentElement (element d node)) visited = Some (body d))).
Proof.
  split.
  - destruct (getFullDomPath_loop_spec 15 (Some node) []) as
      (visited & Hres & Hbound & Hnot & Hup & Hstop); [simpl; lia|].
    rewrite app_nil_r in Hres. simpl in Hbound, Hstop.
    exists visited. unfold getFullDomPath, getFullDomPath_parts. rewrite Hres.
    split; [reflexivity|]. split; [reflexivity|].
    split; [rewrite length_rev, length_map; lia|].
    split; [assumption|]. split.
    { destruct Hup as [->|(c & [= <-] & Hup)]; [now left|now right]. }
    split; [intros; apply Hstop; lia|].
    intros fuel Hfuel. rewrite <- Hres.
    apply getFullDomPath_loop_fuel; simpl; lia.
  - destruct (getParentChain_loop_spec 8 8 (parentElement (element d node)) 0 [])
      as (visited & Hres & Hbound & Hnot & Hup & Hstop); [lia|].
    exists visited. unfold getParentChain, getParentChain_upTo. rewrite Hres. simpl.
    split; [reflexivity|]. split; [rewrite length_map; lia|].
    split; [assumption|]. split.
    { destruct Hup as [->|(c & Hc & Hup)]; [now left|right; eauto]. }
    intros; apply Hstop; lia.
Qed.

End AncestorWalks.

Section PositionalSuffix.
Import JS Dom Content Spec Scenario.

Lemma string_length_app s t : String.length (s +:+ t) = String.length s + String.length t.
Proof.
  induction s as [|c s IH]; [reflexivity|].
  change (S (String.length (s +:+ t)) = S (String.length s) + String.length t).
  now rewrite IH.
Qed.

Lemma indexOf_second (a n c : nat) : a ≠ n → indexOf [a; n; c] n = 1%Z.
Proof.
  intros Hne. unfold indexOf. simpl.
  rewrite bool_decide_eq_false_2 by assumption.
  now rewrite bool_decide_eq_true_2.
Qed.

Lemma getFullDomPath_loop_step fuel d c parts :
  getFullDomPath_loop (S fuel) d (Some c) parts
  = if bool_decide (c ≠ body d) && (length parts <? 15)
    then getFullDomPath_loop fuel d (parentElement (element d c)) (domPathPart d c :: parts)
    else parts.
Proof. reflexivity. Qed.

Lemma getFullDomPath_parts_last d n :
  n ≠ body d → ∃ front, getFullDomPath_parts d n = front ++ [domPathPart d n].
Proof.
  intros Hn. unfold getFullDomPath_parts.
  rewrite (getFullDomPath_loop_step 14 d n []).
  rewrite bool_decide_eq_true_2 by assumption.
  change (true && (length (@nil string) <? 15)) with true. cbv iota.
  destruct (getFullDomPath_loop_spec d 14 (parentElement (element d n)) [domPathPart d n])
    as (visited & -> & _); [simpl; lia|]. eauto.
Qed.

Lemma getUniqueSelector_loop_keeps d fuel : ∀ current path r,
  getUniqueSelector_loop fuel d current path = Some r → ∃ front, r = front ++ path.
Proof.
  induction fuel as [|fuel IH]; intros [c|] path r; simpl;
    try (intros [= <-]; now exists []).
  - case_bool_decide; [discriminate|]. intros [= <-]. now exists [].
  - case_bool_decide; [|intros [= <-]; now exists []].
    destruct (truthy (id (element d c))).
    + intros [= <-]. now exists [selectorPart d c].
    + intros [front ->]%IH. exists (front ++ [selectorPart d c]).
      now rewrite <- app_assoc.
Qed.

Lemma getUniqueSelector_loop_last d fuel n r :
  n ≠ body d →
  getUniqueSelector_loop fuel d (Some n) [] = Some r →
  ∃ front, r = front ++ [selectorPart d n].
Proof.
  intros Hn. destruct fuel as [|fuel]; simpl;
    rewrite bool_decide_eq_true_2 by assumption; [discriminate|].
  destruct (truthy (id (element d n))).
  - intros [= <-]. now exists [].
  - apply getUniqueSelector_loop_keeps.
Qed.

(** C8, as the code has it. Let the node be the second of exactly three
    children of its parent with its tag. In the DOM path its token is its
    label followed by [:nth-of-type(2)]. In the selector synthesizer its token
    is its tag followed by [:nth-of-type(2)] when it has no id, and [#id] with
    no positional suffix when it has one. A node that is the only child of its
    tag gets no positional suffix in either. The token of a node is the last
    part of its DOM path, and the last part of the path of the selector walk
    started at it. *)
Theorem nth_of_type_suffix (d : Document) (n parent : Node) :
  parentElement (element d n) = Some parent →
  (∀ a c, sameTagChildren d parent n = [a; n; c] → a ≠ n →
     domPathPart d n = domPathLabel (element d n) +:+ ":nth-of-type(2)"
     ∧ endsWith (domPathPart d n) ":nth-of-type(2)"
     ∧ (truthy (id (element d n)) = false →
        selectorPart d n = toLowerCase (tagName (element d n)) +:+ ":nth-of-type(2)"))
  ∧ (sameTagChildren d parent n = [n] →
     domPathPart d n = domPathLabel (element d n)
     ∧ (truthy (id (element d n)) = false →
        selectorPart d n = toLowerCase (tagName (element d n))))
  ∧ (truthy (id (element d n)) = true → selectorPart d n = "#" +:+ id (element d n))
  ∧ (n ≠ body d → ∃ front, getFullDomPath_parts d n = front ++ [domPathPart d n])
  ∧ (n ≠ body d → ∀ fuel r,
       getUniqueSelector_loop fuel d (Some n) [] = Some r →
       ∃ front, r = front ++ [selectorPart d n]).
Proof.
  intros Hparent.
  assert (Hsel : ∀ siblings,
    sameTagChildren d parent n = siblings →
    truthy (id (element d n)) = false →
    selectorPart d n =
      if 1 <? length siblings
      then toLowerCase (tagName (element d n)) +:+ ":nth-of-type("
             +:+ ofZ (indexOf siblings n + 1) +:+ ")"
      else toLowerCase (tagName (element d n))).
  { intros siblings <- Hid. unfold selectorPart. now rewrite Hid, Hparent. }
  assert (Hdom : ∀ siblings,
    sameTagChildren d parent n = siblings →
    domPathPart d n =
      if 1 <? length siblings
      then domPathLabel (element d n) +:+ ":nth-of-type("
             +:+ ofZ (indexOf siblings n + 1) +:+ ")"
      else domPathLabel (element d n)).
  { intros siblings <-. unfold domPathPart. now rewrite Hparent. }
  split; [|split; [|split; [|split]]].
  - intros a c Hsib Hne.
    assert (Hpart : domPathPart d n = domPathLabel (element d n) +:+ ":nth-of-type(2)").
    { rewrite (Hdom _ Hsib). simpl. now rewrite indexOf_second. }
    split; [exact Hpart|]. split; [rewrite Hpart; now eexists|].
    intros Hid. rewrite (Hsel _ Hsib Hid). simpl. now rewrite indexOf_second.
  - intros Hsib. split; [now rewrite (Hdom _ Hsib)|].
    intros Hid. now rewrite (Hsel _ Hsib Hid).
  - intros Hid. unfold selectorPart. now rewrite Hid.
  - apply getFullDomPath_parts_last.
  - intros Hn fuel r. now apply getUniqueSelector_loop_last.
Qed.

Lemma nth_of_type_suffix_witness :
  domPathPart docListPlain 4 = "li:nth-of-type(2)"
  ∧ selectorPart docListPlain 4 = "li:nth-of-type(2)"
  ∧ domPathPart docListPlain 6 = "span"
  ∧ getFullDomPath docListPlain 6 = "ul > li:nth-of-type(2) > span"
  ∧ getUniqueSelector 3 docListPlain 6 = Some "ul > li:nth-of-type(2) > span".
Proof.
  destruct (nth_of_type_suffix docListPlain 4 2 eq_refl) as (Hsecond & _).
  destruct (Hsecond 3 5 eq_refl) as (Hdom & _ & Hsel); [discriminate|].
  destruct (nth_of_type_suffix docListPlain 6 4 eq_refl) as (_ & Honly & _).
  destruct (Honly eq_refl) as (Hspan & _).
  split; [exact Hdom|]. split; [exact (Hsel eq_refl)|]. split; [exact Hspan|].
  split; reflexivity.
Defined.

(** C8, as the specification words it, fails in the selector synthesizer: the
    second of three list items has an id, so its token is [#second], which
    does not end with [:nth-of-type(2)]; in the DOM path of the same node it
    does. *)
Lemma identified_sibling_has_no_suffix :
  parentElement (element docList 4) = Some 2
  ∧ sameTagChildren docList 2 4 = [3; 4; 5]
  ∧ selectorPart docList 4 = "#second"
  ∧ getUniqueSelector 3 docList 6 = Some "#second > span"
  ∧ domPathPart docList 4 = "li#second:nth-of-type(2)"
  ∧ ¬ endsWith (selectorPart docList 4) ":nth-of-type(2)".
Proof.
  repeat (split; [reflexivity|]).
  intros [front Hfront]. apply (f_equal String.length) in Hfront.
  rewrite string_length_app in Hfront.
  change (String.length (selectorPart docList 4)) with 7 in Hfront.
  change (String.length ":nth-of-type(2)") with 15 in Hfront. lia.
Qed.

End PositionalSuffix.

Section FiberWalk.
Import JS Fiber Dom Background Spec Scenario.

Lemma fiber_chain_ind (P : Fiber.t → Prop) :
  (∀ f, (∀ parent, return_ f = Some parent → P parent) → P f) → ∀ f, P f.
Proof.
  intros step. fix IH 1. intros [ty src props [parent|]]; apply step; simpl.
  - intros q [= <-]. apply IH.
  - discriminate.
Qed.

Lemma keeps_kept name : keeps name = true ↔ kept name.
Proof.
  unfold keeps, kept. rewrite !andb_true_iff, !negb_true_iff, truthy_spec.
  rewrite String.eqb_neq. tauto.
Qed.

Lemma startsUpper_spec s :
  startsUpper s = true
  ↔ ∃ c rest, s = String c rest ∧ 65 ≤ nat_of_ascii c ≤ 90.
Proof.
  destruct s as [|c rest]; simpl.
  - split; [discriminate|]. now intros (c & rest & [=] & _).
  - unfold isUpper. rewrite andb_true_iff, !Nat.leb_le. split.
    + intros H. now exists c, rest.
    + now intros (c' & rest' & [= <- <-] & H).
Qed.

Lemma walkFrom_chain : ∀ f depth tree,
  walkFrom f depth tree
  = (depth + length (take (30 - depth) (chain f)),
     visitAll (take (30 - depth) (chain f)) depth tree).
Proof.
  induction f as [f IH] using fiber_chain_ind. intros depth tree.
  destruct f as [ty src props ret]. simpl in *.
  destruct (Nat.ltb_spec depth 30) as [Hlt|Hge]; cycle 1.
  { replace (30 - depth) with 0 by lia. simpl. now rewrite Nat.add_0_r. }
  replace (30 - depth) with (S (30 - S depth)) by lia. simpl.
  destruct ret as [parent|].
  - rewrite (IH parent eq_refl). change (30 - S depth) with (29 - depth).
    f_equal. lia.
  - rewrite take_nil. simpl. f_equal. lia.
Qed.

Lemma visitAll_app l1 : ∀ l2 depth tree,
  visitAll (l1 ++ l2) depth tree
  = visitAll l2 (depth + length l1) (visitAll l1 depth tree).
Proof.
  induction l1 as [|f l1 IH]; intros l2 depth tree; simpl.
  - now rewrite Nat.add_0_r.
  - rewrite IH. f_equal. lia.
Qed.

Lemma visit_entry f depth tree :
  visit f depth tree = tree ++ entry (depth <? 5) f.
Proof.
  unfold visit, entry. destruct (getComponentDisplayName f) as [n|];
    [|now rewrite app_nil_r].
  destruct (keeps n); [reflexivity|now rewrite app_nil_r].
Qed.

Lemma visitAll_shallow fibers : ∀ depth tree,
  depth + length fibers ≤ 5 →
  visitAll fibers depth tree = tree ++ flat_map (entry true) fibers.
Proof.
  induction fibers as [|f fibers IH]; intros depth tree Hdepth; simpl in *.
  - now rewrite app_nil_r.
  - rewrite IH by lia. rewrite visit_entry, <- app_assoc.
    destruct (Nat.ltb_spec depth 5); [reflexivity|lia].
Qed.

Lemma visitAll_beyond fibers : ∀ depth tree,
  5 ≤ depth →
  visitAll fibers depth tree = tree ++ flat_map (entry false) fibers.
Proof.
  induction fibers as [|f fibers IH]; intros depth tree Hdepth; simpl in *.
  - now rewrite app_nil_r.
  - rewrite IH by lia. rewrite visit_entry, <- app_assoc.
    destruct (Nat.ltb_spec depth 5); [lia|reflexivity].
Qed.

Lemma walk_entries (fiber : Fiber.t) :
  (walk (Some fiber) 0 []).2
  = flat_map (entry true) (take 5 (chain fiber))
    ++ flat_map (entry false) (drop 5 (take 30 (chain fiber))).
Proof.
  simpl. rewrite walkFrom_chain. simpl.
  rewrite <- (take_drop 5 (take 30 (chain fiber))) at 1.
  rewrite take_take. change (5 `min` 30) with 5. rewrite visitAll_app.
  rewrite (visitAll_shallow (take 5 (chain fiber)) 0 [])
    by (rewrite length_take; lia).
  destruct (Nat.le_gt_cases 5 (length (chain fiber))) as [Hlong|Hshort].
  - rewrite length_take_le by assumption. now apply visitAll_beyond.
  - rewrite (drop_ge (take 30 (chain fiber))) by (rewrite length_take; lia).
    cbn [visitAll flat_map app]. now rewrite app_nil_r.
Qed.

Lemma entry_fields withProps f hop :
  hop ∈ entry withProps f →
  getComponentDisplayName f = Some (name hop)
  ∧ source hop = getDebugSource f
  ∧ props hop = (if withProps then getSafeProps f else None)
  ∧ isUserComponent hop = startsUpper (name hop).
Proof.
  unfold entry. destruct (getComponentDisplayName f) as [n|];
    [|now intros ?%elem_of_nil].
  destruct (keeps n); [|now intros ?%elem_of_nil].
  intros ->%list_elem_of_singleton. now repeat split.
Qed.


Lemma visit_names f depth tree :
  map name (visit f depth tree) = map name tree ++ retained (getComponentDisplayName f).
Proof.
  unfold visit, retained. destruct (getComponentDisplayName f) as [n|];
    [|now rewrite app_nil_r].
  destruct (keeps n); [|now rewrite app_nil_r]. now rewrite map_app.
Qed.

Lemma visitAll_names fibers : ∀ depth tree,
  map name (visitAll fibers depth tree)
  = map name tree ++ flat_map retained (map getComponentDisplayName fibers).
Proof.
  induction fibers as [|f fibers IH]; intros depth tree; simpl.
  - now rewrite app_nil_r.
  - now rewrite IH, visit_names, <- app_assoc.
Qed.

Lemma getDebugSource_fileName f s :
  getDebugSource f = Some s → truthy (ReactInfo.fileName s) = true.
Proof.
  unfold getDebugSource. destruct (_debugSource f) as [raw|]; [|discriminate].
  destruct (raw_fileName raw) as [file|]; [|discriminate].
  destruct (truthy file) eqn:Hfile; [|discriminate]. now intros [= <-].
Qed.

Lemma visit_wellFormed f depth tree :
  Forall wellFormedHop tree → Forall wellFormedHop (visit f depth tree).
Proof.
  intros Htree. unfold visit. destruct (getComponentDisplayName f) as [n|]; [|assumption].
  destruct (keeps n) eqn:Hkeep; [|assumption].
  apply Forall_app. split; [assumption|]. constructor; [|constructor].
  split; [now apply keeps_kept|]. split; [reflexivity|]. apply getDebugSource_fileName.
Qed.

Lemma visitAll_wellFormed fibers : ∀ depth tree,
  Forall wellFormedHop tree → Forall wellFormedHop (visitAll fibers depth tree).
Proof.
  induction fibers as [|f fibers IH]; intros depth tree Htree; simpl; [assumption|].
  now apply IH, visit_wellFormed.
Qed.

Lemma visit_length f depth tree : length (visit f depth tree) ≤ S (length tree).
Proof.
  unfold visit. destruct (getComponentDisplayName f) as [n|]; [|lia].
  destruct (keeps n); [|lia]. rewrite length_app. simpl. lia.
Qed.

Lemma visitAll_length fibers : ∀ depth tree,
  length (visitAll fibers depth tree) ≤ length tree + length fibers.
Proof.
  induction fibers as [|f fibers IH]; intros depth tree; simpl; [lia|].
  pose proof (IH (S depth) (visit f depth tree)). pose proof (visit_length f depth tree). lia.
Qed.

Lemma walk_wellFormed fiber : Forall wellFormedHop (walk fiber 0 []).2.
Proof.
  destruct fiber as [f|]; simpl; [|constructor].
  rewrite walkFrom_chain. simpl. apply visitAll_wellFormed. constructor.
Qed.

Lemma users_names tree :
  Forall wellFormedHop tree →
  map name (filter (λ c, isUserComponent c = true) tree)
  = filter (λ n, startsUpper n = true) (map name tree).
Proof.
  induction 1 as [|hop tree (_ & Huser & _) _ IH]; [reflexivity|].
  simpl. rewrite !filter_cons. rewrite <- Huser.
  destruct (decide (isUserComponent hop = true)); simpl; now rewrite IH.
Qed.


Lemma summarize_names tree :
  Forall wellFormedHop tree →
  ReactInfo.fullReactTree (summarize tree) = Some (map name tree)
  ∧ ReactInfo.componentHierarchy (summarize tree)
    = Some (filter (λ n, startsUpper n = true) (map name tree))
  ∧ ReactInfo.componentName (summarize tree)
    = head (filter (λ n, startsUpper n = true) (map name tree)).
Proof.
  intros Htree. split; [reflexivity|]. unfold summarize; simpl.
  rewrite <- (users_names tree Htree). split; [reflexivity|].
  assert (Husers : Forall wellFormedHop (filter (λ c, isUserComponent c = true) tree)).
  { apply Forall_forall. intros hop [_ Hin]%list_elem_of_filter.
    rewrite Forall_forall in Htree. now apply Htree. }
  destruct (filter (λ c, isUserComponent c = true) tree) as [|c users]; [reflexivity|].
  simpl. apply Forall_cons in Husers as [((Hname & _) & _) _].
  unfold orElse. simpl. apply truthy_spec in Hname. now rewrite Hname.
Qed.

(** C7. From every starting handle the walk stops with [depth] at most 30: it
    visits the first 30 fibers of the chain and no other, and appends at most
    one entry per visit. No entry of [tree], hence no name in
    [fullReactTree] or [componentHierarchy], is empty, begins with an
    underscore, or is [Fragment]. *)
Theorem walk_bounded_and_filtered (fiber : option Fiber.t) :
  (walk fiber 0 []).1 ≤ 30
  ∧ length (walk fiber 0 []).2 ≤ (walk fiber 0 []).1
  ∧ Forall (λ hop, kept (name hop)) (walk fiber 0 []).2
  ∧ (∀ f, fiber = Some f →
       (walk fiber 0 []).1 = length (take 30 (chain f))
       ∧ (walk fiber 0 []).2 = visitAll (take 30 (chain f)) 0 [])
  ∧ (∀ names,
       ReactInfo.fullReactTree (summarize (walk fiber 0 []).2) = Some names →
       Forall kept names)
  ∧ (∀ names,
       ReactInfo.componentHierarchy (summarize (walk fiber 0 []).2) = Some names →
       Forall kept names).
Proof.
  pose proof (walk_wellFormed fiber) as Hwf.
  assert (Hkept : Forall (λ hop, kept (name hop)) (walk fiber 0 []).2).
  { eapply Forall_impl; [exact Hwf|]. now intros hop (Hk & _). }
  assert (Hnames : Forall kept (map name (walk fiber 0 []).2)).
  { now apply Forall_map. }
  destruct (summarize_names _ Hwf) as (Hfull & Hhier & _).
  split; [|split; [|split; [exact Hkept|split; [|split]]]].
  - destruct fiber as [f|]; simpl; [|lia]. rewrite walkFrom_chain. simpl.
    rewrite length_take. lia.
  - destruct fiber as [f|]; simpl; [|lia]. rewrite walkFrom_chain. simpl.
    pose proof (visitAll_length (take 30 (chain f)) 0 []). simpl in *. lia.
  - intros f ->. simpl. now rewrite walkFrom_chain.
  - intros names. rewrite Hfull. now intros [= <-].
  - intros names. rewrite Hhier. intros [= <-].
    apply Forall_forall. intros n [_ Hin]%list_elem_of_filter.
    rewrite Forall_forall in Hnames. now apply Hnames.
Qed.

(** C2, as the code has it. A hop is a user component exactly when its name
    begins with a letter from [A] to [Z]. [Icon] begins with one, so for a
    chain that derives [div], [Icon], [Button], [Toolbar] the walk returns
    [componentHierarchy = [Icon, Button, Toolbar]], [componentName = Icon] and
    the full tree [div, Icon, Button, Toolbar]. *)
Theorem scenario_B_hierarchy (fiber : Fiber.t) :
  map getComponentDisplayName (chain fiber)
    = [Some "div"; Some "Icon"; Some "Button"; Some "Toolbar"] →
  let tree := (walk (Some fiber) 0 []).2 in
  ReactInfo.componentHierarchy (summarize tree) = Some ["Icon"; "Button"; "Toolbar"]
  ∧ ReactInfo.componentName (summarize tree) = Some "Icon"
  ∧ ReactInfo.fullReactTree (summarize tree) = Some ["div"; "Icon"; "Button"; "Toolbar"]
  ∧ Forall (λ hop,
       isUserComponent hop = true
       ↔ ∃ c rest, name hop = String c rest ∧ 65 ≤ nat_of_ascii c ≤ 90) tree.
Proof.
  intros Hchain tree.
  pose proof (walk_wellFormed (Some fiber)) as Hwf. fold tree in Hwf.
  assert (Hnames : map name tree = ["div"; "Icon"; "Button"; "Toolbar"]).
  { unfold tree. simpl. rewrite walkFrom_chain. simpl.
    rewrite visitAll_names. simpl.
    rewrite take_ge by (apply (f_equal length) in Hchain;
                        rewrite length_map in Hchain; simpl in Hchain; lia).
    now rewrite Hchain. }
  destruct (summarize_names _ Hwf) as (Hfull & Hhier & Hname).
  rewrite Hfull, Hhier, Hname, Hnames.
  split; [reflexivity|]. split; [reflexivity|]. split; [reflexivity|].
  eapply Forall_impl; [exact Hwf|]. intros hop (_ & -> & _). apply startsUpper_spec.
Qed.

Lemma scenario_B_hierarchy_witness :
  ReactInfo.componentHierarchy (summarize (walk (Some divB) 0 []).2)
    = Some ["Icon"; "Button"; "Toolbar"]
  ∧ ReactInfo.componentName (summarize (walk (Some divB) 0 []).2) = Some "Icon".
Proof.
  destruct (scenario_B_hierarchy divB eq_refl) as (Hhier & Hname & _).
  split; [exact Hhier|exact Hname].
Defined.

(** C2, as the specification words it, fails: on the chain of scenario B the
    hierarchy is not [Button, Toolbar] and the component name is not
    [Button], because [Icon] is classified as a user component too. *)
Lemma scenario_B_as_worded_fails :
  map getComponentDisplayName (chain divB)
    = [Some "div"; Some "Icon"; Some "Button"; Some "Toolbar"]
  ∧ startsUpper "Icon" = true
  ∧ ReactInfo.componentHierarchy (reactInfoFunc pageB "div")
    = Some ["Icon"; "Button"; "Toolbar"]
  ∧ ReactInfo.componentHierarchy (reactInfoFunc pageB "div") ≠ Some ["Button"; "Toolbar"]
  ∧ ReactInfo.componentName (reactInfoFunc pageB "div") = Some "Icon"
  ∧ ReactInfo.componentName (reactInfoFunc pageB "div") ≠ Some "Button"
  ∧ ReactInfo.fullReactTree (reactInfoFunc pageB "div")
    = Some ["div"; "Icon"; "Button"; "Toolbar"].
Proof.
  split; [reflexivity|]. split; [reflexivity|].
  split; [now vm_compute|]. split; [now vm_compute|].
  split; [now vm_compute|]. split; [now vm_compute|]. now vm_compute.
Qed.



End FiberWalk.

Section Sanitizer.
Import JS Fiber Dom Background Spec Scenario.

Lemma safeStep_sanitized key value (safe : gmap string Value) :
  safeStep key value safe
  = match (if bool_decide (key ∈ skip) then None else sanitized value) with
    | Some v => <[key := v]> safe
    | None => safe
    end.
Proof.
  unfold safeStep, sanitized. case_bool_decide; [reflexivity|].
  destruct value; try reflexivity. now destruct (100 <? String.length s).
Qed.

Lemma safeOf_lookup (props : gmap string Value) key :
  safeOf props !! key
  = if bool_decide (key ∈ skip) then None else props !! key ≫= sanitized.
Proof.
  unfold safeOf. revert key.
  apply (map_fold_weak_ind
           (λ safe m, ∀ key, safe !! key
              = if bool_decide (key ∈ skip) then None else m !! key ≫= sanitized)).
  - intros key. rewrite !lookup_empty. now case_bool_decide.
  - intros i x m safe Hfresh IH key. rewrite safeStep_sanitized.
    destruct (decide (key = i)) as [->|Hne].
    + rewrite lookup_insert_eq. simpl. specialize (IH i). rewrite Hfresh in IH.
      case_bool_decide; [exact IH|].
      destruct (sanitized x); [now rewrite lookup_insert_eq|exact IH].
    + rewrite (lookup_insert_ne m) by congruence. rewrite <- IH.
      destruct (if bool_decide (i ∈ skip) then None else sanitized x);
        [now rewrite lookup_insert_ne by congruence|reflexivity].
Qed.

Lemma keys_nonempty {V} (o : gmap string V) : (0 <? length (keys o)) = false ↔ o = ∅.
Proof.
  unfold keys. rewrite length_fmap, Nat.ltb_ge, <- map_to_list_empty_iff.
  destruct (map_to_list o); simpl; split; (congruence || lia).
Qed.

Lemma getSafeProps_spec fiber props :
  memoizedProps fiber = Some props →
  getSafeProps fiber = if decide (safeOf props = ∅) then None else Some (safeOf props).
Proof.
  intros Hprops. unfold getSafeProps. rewrite Hprops.
  destruct (0 <? length (keys (safeOf props))) eqn:Hkeys; case_decide as Hempty;
    try reflexivity.
  - apply keys_nonempty in Hempty. congruence.
  - apply keys_nonempty in Hkeys. contradiction.
Qed.

(** C5, as the code has it. For every props record, [safe] has no entry for
    the keys [children], [ref], [key], [__self], [__source] and none for a key
    the record does not have. For every other key the rules apply in order: a
    function gives [[Function]]; an array gives [[Array(n)]] with its length;
    any other object that is not null gives [[Object]]; a string longer than
    100 characters gives its first 100 characters followed by [...]; a value
    that is [undefined] gives no entry; every other value (a shorter string, a
    number, a boolean, null) is stored unchanged. The result is absent, not
    an empty object, when [safe] has no entry or the fiber has no props. *)
Theorem getSafeProps_rules (fiber : Fiber.t) (props : gmap string Value) :
  memoizedProps fiber = Some props →
  let safe := safeOf props in
  skip = ["children"; "ref"; "key"; "__self"; "__source"]
  ∧ (∀ key, key ∈ skip → safe !! key = None)
  ∧ (∀ key, props !! key = None → safe !! key = None)
  ∧ (∀ key, key ∉ skip → props !! key = Some VFunction →
       safe !! key = Some (VString "[Function]"))
  ∧ (∀ key items, key ∉ skip → props !! key = Some (VArray items) →
       safe !! key = Some (VString ("[Array(" +:+ ofNat (length items) +:+ ")]")))
  ∧ (∀ key fields, key ∉ skip → props !! key = Some (VObject fields) →
       safe !! key = Some (VString "[Object]"))
  ∧ (∀ key s, key ∉ skip → props !! key = Some (VString s) →
       100 < String.length s →
       ∃ first rest, s = first +:+ rest ∧ String.length first = 100
                     ∧ safe !! key = Some (VString (first +:+ "...")))
  ∧ (∀ key s, key ∉ skip → props !! key = Some (VString s) →
       String.length s ≤ 100 → safe !! key = Some (VString s))
  ∧ (∀ key value, key ∉ skip → props !! key = Some value →
       (value = VNull ∨ (∃ b, value = VBoolean b) ∨ (∃ n, value = VNumber n)) →
       safe !! key = Some value)
  ∧ (∀ key, props !! key = Some VUndefined → safe !! key = None)
  ∧ (safe = ∅ → getSafeProps fiber = None)
  ∧ (safe ≠ ∅ → getSafeProps fiber = Some safe)
  ∧ getSafeProps fiber ≠ Some ∅.
Proof.
  intros Hprops safe.
  assert (Hnot : ∀ key, key ∉ skip → ∀ value, props !! key = Some value →
                 safe !! key = sanitized value).
  { intros key Hkey value Hvalue. unfold safe. rewrite safeOf_lookup, Hvalue.
    now rewrite bool_decide_eq_false_2. }
  split; [reflexivity|]. split.
  { intros key Hkey. unfold safe. rewrite safeOf_lookup.
    now rewrite bool_decide_eq_true_2. }
  split.
  { intros key Hkey. unfold safe. rewrite safeOf_lookup, Hkey. now case_bool_decide. }
  split; [intros key Hkey Hvalue; now rewrite (Hnot key Hkey _ Hvalue)|].
  split; [intros key items Hkey Hvalue; now rewrite (Hnot key Hkey _ Hvalue)|].
  split; [intros key fields Hkey Hvalue; now rewrite (Hnot key Hkey _ Hvalue)|].
  split.
  { intros key s Hkey Hvalue Hlong. rewrite (Hnot key Hkey _ Hvalue). simpl.
    destruct (Nat.ltb_spec 100 (String.length s)); [|lia].
    destruct (slice0_prefix 100 s) as [rest Hrest].
    exists (slice0 100 s), rest. split; [exact Hrest|]. split; [|reflexivity].
    rewrite slice0_length. lia. }
  split.
  { intros key s Hkey Hvalue Hshort. rewrite (Hnot key Hkey _ Hvalue). simpl.
    destruct (Nat.ltb_spec 100 (String.length s)); [lia|reflexivity]. }
  split.
  { intros key value Hkey Hvalue Hkind. rewrite (Hnot key Hkey _ Hvalue).
    destruct Hkind as [->|[[b ->]|[n ->]]]; reflexivity. }
  split.
  { intros key Hvalue. unfold safe. rewrite safeOf_lookup, Hvalue. now case_bool_decide. }
  rewrite (getSafeProps_spec fiber props Hprops). fold safe.
  split; [intros Hempty; now case_decide|].
  split; [intros Hempty; now case_decide|].
  case_decide; congruence.
Qed.

Lemma getSafeProps_rules_witness :
  safeOf propsAll !! "onClick" = Some (VString "[Function]")
  ∧ safeOf propsAll !! "items" = Some (VString "[Array(3)]")
  ∧ safeOf propsAll !! "style" = Some (VString "[Object]")
  ∧ safeOf propsAll !! "label" = Some (VString "Save")
  ∧ safeOf propsAll !! "tooltip" = None
  ∧ safeOf propsAll !! "children" = None
  ∧ (∃ first rest, longString = first +:+ rest ∧ String.length first = 100
       ∧ safeOf propsAll !! "title" = Some (VString (first +:+ "...")))
  ∧ getSafeProps (fiberWithProps propsUndefined) = None.
Proof.
  destruct (getSafeProps_rules (fiberWithProps propsAll) propsAll eq_refl)
    as (_ & Hskip & _ & Hfun & Harr & Hobj & Hlong & Hshort & _ & Hundef & _).
  destruct (getSafeProps_rules (fiberWithProps propsUndefined) propsUndefined eq_refl)
    as (_ & _ & _ & _ & _ & _ & _ & _ & _ & Hundef' & Hempty & _).
  split; [apply Hfun; [compute_done|reflexivity]|].
  split; [apply (Harr "items" [VNumber 1; VNumber 2; VNumber 3]%Z);
          [compute_done|reflexivity]|].
  split; [apply (Hobj "style" [("color", VString "red")]); [compute_done|reflexivity]|].
  split; [apply Hshort; [compute_done|reflexivity|vm_compute; lia]|].
  split; [apply Hundef; reflexivity|].
  split; [apply Hskip; compute_done|].
  split; [apply Hlong; [compute_done|reflexivity|vm_compute; lia]|].
  apply Hempty. apply map_empty. intros key.
  destruct (decide (key = "tooltip")) as [->|Hne].
  - apply Hundef'. reflexivity.
  - unfold safeOf. rewrite safeOf_lookup.
    case_bool_decide; [reflexivity|].
    unfold propsUndefined. now rewrite lookup_singleton_ne.
Defined.

(** C5, as the specification words it, fails on a value that is [undefined]:
    the key is not reserved and the value is none of a function, an array, an
    object or a long string, yet it is not stored unchanged: [safe] has no
    entry for it, and the props of a fiber whose only prop is [undefined] are
    absent altogether. *)
Lemma undefined_prop_is_dropped :
  propsUndefined !! "tooltip" = Some VUndefined
  ∧ ("tooltip" ∉ skip)
  ∧ safeOf propsUndefined !! "tooltip" = None
  ∧ safeOf propsUndefined !! "tooltip" ≠ Some VUndefined
  ∧ getSafeProps (fiberWithProps propsUndefined) = None
  ∧ Panel.getSafeProps (fiberWithProps propsUndefined)
    = Some {[ "tooltip" := VUndefined ]}.
Proof.
  split; [reflexivity|]. split; [compute_done|].
  split; [reflexivity|]. split; [now vm_compute|].
  split; reflexivity.
Qed.

End Sanitizer.

Section Sampler.
Import JS Dom Content Spec Scenario.

Lemma attrStep_lookup attrs n v key :
  attrStep attrs (n, v) !! key
  = if decide (key = n)
    then (if excluded n then attrs !! key else Some (slice0 200 v))
    else attrs !! key.
Proof.
  unfold attrStep, excluded. simpl. rewrite <- negb_orb.
  destruct (startsWith n "__react" || startsWith n "data-element-agent"); simpl.
  - now case_decide.
  - case_decide as Hkey; [subst; apply lookup_insert_eq|].
    now rewrite lookup_insert_ne by congruence.
Qed.

Lemma foldl_attrStep_absent attributes : ∀ attrs key,
  key ∉ attributes.*1 → foldl attrStep attrs attributes !! key = attrs !! key.
Proof.
  induction attributes as [|[n v] attributes IH]; intros attrs key Hkey; [reflexivity|].
  simpl in *. apply not_elem_of_cons in Hkey as [Hne Hkey].
  rewrite IH by assumption. rewrite attrStep_lookup. now case_decide.
Qed.

Lemma foldl_attrStep_present attributes : ∀ attrs n v,
  NoDup attributes.*1 → (n, v) ∈ attributes →
  foldl attrStep attrs attributes !! n
  = if excluded n then attrs !! n else Some (slice0 200 v).
Proof.
  induction attributes as [|[n' v'] attributes IH]; intros attrs n v Hnodup Hin.
  - now apply elem_of_nil in Hin.
  - simpl in *. apply NoDup_cons in Hnodup as [Hfresh Hnodup].
    apply elem_of_cons in Hin as [[= <- <-]|Hin].
    + rewrite foldl_attrStep_absent by assumption. rewrite attrStep_lookup.
      now case_decide.
    + rewrite (IH _ n v Hnodup Hin). rewrite attrStep_lookup.
      case_decide as Heq; [|reflexivity]. subst n'.
      exfalso. apply Hfresh. apply list_elem_of_fmap. now exists (n, v).
Qed.

Lemma foldl_attrStep_origin attributes : ∀ attrs key value,
  foldl attrStep attrs attributes !! key = Some value →
  attrs !! key = Some value
  ∨ ∃ v, (key, v) ∈ attributes ∧ excluded key = false ∧ value = slice0 200 v.
Proof.
  induction attributes as [|[n v] attributes IH]; intros attrs key value Hlookup;
    [now left|].
  simpl in Hlookup. apply IH in Hlookup as [Hlookup|(v0 & Hin & Hex & ->)].
  - rewrite attrStep_lookup in Hlookup. case_decide as Heq; [|now left].
    subst. destruct (excluded n) eqn:Hex; [now left|].
    injection Hlookup as <-. right. exists v. split; [constructor|]. now split.
  - right. exists v0. split; [now constructor|]. now split.
Qed.

(** X3. The sampler of the content script never copies an attribute whose
    name starts with [__react] or [data-element-agent]; every value it stores
    is the first 200 characters of the value of an attribute of that name; and
    when the attribute names are distinct, as in a DOM, every other attribute
    is stored. *)
Lemma content_getAllAttributes_spec (el : Element) :
  (∀ name, excluded name = true → getAllAttributes el !! name = None)
  ∧ (∀ name value, getAllAttributes el !! name = Some value →
       String.length value ≤ 200
       ∧ ∃ v, (name, v) ∈ attributes el ∧ value = slice0 200 v)
  ∧ (NoDup (attributes el).*1 →
     ∀ name v, (name, v) ∈ attributes el → excluded name = false →
       getAllAttributes el !! name = Some (slice0 200 v)).
Proof.
  unfold getAllAttributes. split; [|split].
  - intros name Hex. destruct (foldl attrStep ∅ (attributes el) !! name) eqn:Hlookup;
      [|reflexivity].
    apply foldl_attrStep_origin in Hlookup as [Hlookup|(v & _ & Hex' & _)];
      [now rewrite lookup_empty in Hlookup|congruence].
  - intros name value Hlookup.
    apply foldl_attrStep_origin in Hlookup as [Hlookup|(v & Hin & _ & ->)];
      [now rewrite lookup_empty in Hlookup|].
    split; [rewrite slice0_length; lia|eauto].
  - intros Hnodup name v Hin Hex.
    rewrite (foldl_attrStep_present _ _ name v Hnodup Hin). now rewrite Hex.
Qed.

Lemma nonEmptyObject_spec {V} (o : gmap string V) :
  nonEmptyObject o = if decide (o = ∅) then None else Some o.
Proof.
  unfold nonEmptyObject.
  destruct (0 <? length (keys o)) eqn:Hkeys; case_decide as Hempty; try reflexivity.
  - apply keys_nonempty in Hempty. congruence.
  - apply keys_nonempty in Hkeys. contradiction.
Qed.

(** In a descriptor the two sampled mappings are absent when empty. *)
Lemma sampled_mappings_absent_when_empty d el reactInfo :
  allAttributes (meta (assemble d el reactInfo)) ≠ Some ∅
  ∧ computedStyles (meta (assemble d el reactInfo)) ≠ Some ∅
  ∧ (∀ info, Panel.capture d (Some el) = Some info →
       allAttributes (meta info) ≠ Some ∅ ∧ computedStyles (meta info) ≠ Some ∅).
Proof.
  assert (H : ∀ o : gmap string string, nonEmptyObject o ≠ Some ∅).
  { intros o. rewrite nonEmptyObject_spec. case_decide; congruence. }
  split; [apply H|]. split; [apply H|]. intros info [= <-]. split; apply H.
Qed.

(** C9 at the failing input: an element whose only attribute is one of the
    extension, [data-element-agent-id]. The sampler of the content script
    leaves the attribute out, and the descriptor has no [allAttributes]; the
    sampler of the panel script copies it, and the descriptor of the panel has
    it. *)
Theorem panel_sampler_keeps_extension_attribute :
  excluded "data-element-agent-id" = true
  ∧ Content.getAllAttributes markedOnly = ∅
  ∧ Panel.getAllAttributes markedOnly = {[ "data-element-agent-id" := "7" ]}
  ∧ allAttributes (meta (assemble docMarked 2 ReactInfo.empty)) = None
  ∧ (allAttributes ∘ meta) <$> Panel.capture docMarked (Some 2)
    = Some (Some {[ "data-element-agent-id" := "7" ]}).
Proof. repeat split; reflexivity. Qed.

End Sampler.

Section Examples.
Import JS Fiber Dom Spec Scenario.

Lemma ancestorFiber_fuel d fuel : ∀ fuel' parent fiber attempts,
  10 ≤ fuel + attempts → 10 ≤ fuel' + attempts →
  Background.ancestorFiber fuel d parent fiber attempts
  = Background.ancestorFiber fuel' d parent fiber attempts.
Proof.
  induction fuel as [|fuel IH]; intros fuel' parent fiber attempts H H'.
  - destruct fuel'; simpl; [reflexivity|]. destruct parent, fiber; try reflexivity.
    destruct (Nat.ltb_spec attempts 10); [simpl in *; lia|reflexivity].
  - destruct fuel' as [|fuel']; simpl.
    + destruct parent, fiber; try reflexivity.
      destruct (Nat.ltb_spec attempts 10); [simpl in *; lia|reflexivity].
    + destruct parent, fiber; try reflexivity.
      destruct (Nat.ltb_spec attempts 10); [|reflexivity]. apply IH; lia.
Qed.

(** A node 38 levels below [body]: the path keeps the 15 nearest tokens, the
    chain the 8 nearest ancestors. *)
Example deep_node_is_cut :
  length (Content.getFullDomPath_parts docDeep 40) = 15
  ∧ length (Content.getParentChain docDeep 40) = 8
  ∧ Content.getFullDomPath docDeep 4 = "div > div > div"
  ∧ length (Content.getParentChain docDeep 4) = 2.
Proof. repeat split; reflexivity. Qed.

(** A store with a cycle of parents: both walks end at their bound, and the
    selector walk does not end. *)
Example cyclic_store :
  length (Content.getFullDomPath_parts docLoop 4) = 15
  ∧ length (Content.getParentChain docLoop 4) = 8
  ∧ Content.getUniqueSelector 50 docLoop 4 = None.
Proof. repeat split; reflexivity. Qed.

(** A chain of 40 host fibers: the walk stops at depth 30 with 30 entries. *)
Example long_chain_stops :
  (Background.walk (hostChain 40 None) 0 []).1 = 30
  ∧ length (Background.walk (hostChain 40 None) 0 []).2 = 30.
Proof. split; reflexivity. Qed.

(** An anonymous function, an internal name and a fragment leave no entry. *)
Example hidden_names_are_dropped :
  map Background.name (Background.walk (Some hiddenChain) 0 []).2 = ["App"]
  ∧ (Background.walk (Some hiddenChain) 0 []).1 = 4.
Proof. split; reflexivity. Qed.

(** The content script leaves out the extension and fiber attributes and cuts
    a value of 250 characters to 200; the panel script leaves out the fiber
    attribute only. *)
Example marked_attributes :
  dom (Content.getAllAttributes marked) = {[ "title" ]}
  ∧ String.length <$> Content.getAllAttributes marked !! "title" = Some 200
  ∧ dom (Panel.getAllAttributes marked) = {[ "title"; "data-element-agent-id" ]}.
Proof. repeat split; reflexivity. Qed.

(** Scenario A, end to end. *)
Example scenario_A :
  Content.getUniqueSelector 0 docA buttonA = Some "#save-btn"
  ∧ Background.reactInfoFunc pageA "#save-btn" = ReactInfo.noReact
  ∧ Content.selector <$>
      (match Content.getElementInfo 0 docA (Content.extension pageA (Some 1)) buttonA with
       | Content.Fulfilled info => Some info
       | _ => None
       end) = Some "button#save-btn".
Proof. repeat split; reflexivity. Qed.

End Examples.

(** * Further properties of the code *)

Section Samplers.
Import JS Dom Content Spec Scenario.

Lemma styleStep_lookup computed styles prop key :
  styleStep computed styles prop !! key
  = if decide (key = prop ∧ informative (computed prop))
    then Some (computed prop) else styles !! key.
Proof.
  unfold styleStep, informative.
  destruct (truthy (computed prop)) eqn:Htruthy; simpl; cycle 1.
  { apply not_true_iff_false in Htruthy. rewrite truthy_spec in Htruthy.
    case_decide as H; [|reflexivity]. exfalso. tauto. }
  apply truthy_spec in Htruthy.
  repeat match goal with
  | |- context [String.eqb ?a ?b] =>
      destruct (String.eqb_spec a b); simpl;
        [case_decide as H; [exfalso; tauto|reflexivity]|]
  end.
  case_decide as H.
  - destruct H as [-> _]. apply lookup_insert_eq.
  - rewrite lookup_insert_ne; [reflexivity|]. intros <-. tauto.
Qed.

Lemma foldl_styleStep_lookup computed props : ∀ styles key,
  foldl (styleStep computed) styles props !! key
  = if decide (key ∈ props ∧ informative (computed key))
    then Some (computed key) else styles !! key.
Proof.
  induction props as [|prop props IH]; intros styles key; cbn [foldl].
  - case_decide as H; [|reflexivity]. destruct H as [H _]. now apply elem_of_nil in H.
  - rewrite IH, styleStep_lookup.
    repeat case_decide; try reflexivity;
      repeat match goal with H : _ ∧ _ |- _ => destruct H end;
      subst; try reflexivity; exfalso;
      repeat match goal with
             | H : _ ∈ _ :: _ |- _ => apply elem_of_cons in H as [->|H]
             | H : ¬ (?x = ?x ∧ _) |- _ => apply H; split; [reflexivity|assumption]
             | H : ¬ (_ ∧ _) |- _ => apply H; split; [|assumption]
             | |- _ ∈ _ :: _ => apply elem_of_cons; tauto
             | |- _ = _ => reflexivity
             | |- _ ∈ _ => assumption
             end.
Qed.

(** X1. The style sample holds exactly the allow-listed properties whose
    computed value is informative: a property is in the sample, with its
    computed value, if and only if it is one of the 17 names of [relevant]
    and its value is neither empty nor [none], [normal], [auto] or [0px]. *)
Theorem getRelevantStyles_exact (el : Element) (prop val : string) :
  getRelevantStyles el !! prop = Some val
  ↔ prop ∈ relevant ∧ val = computedStyle el prop ∧ informative val.
Proof.
  unfold getRelevantStyles. rewrite foldl_styleStep_lookup, lookup_empty.
  case_decide as H; split.
  - intros [= <-]. tauto.
  - intros (_ & -> & _). reflexivity.
  - discriminate.
  - intros (Hin & -> & Hinf). tauto.
Qed.

Lemma panel_attrStep_lookup attrs n v key :
  Panel.attrStep attrs (n, v) !! key
  = if decide (key = n)
    then (if startsWith n "__react" then attrs !! key else Some (slice0 200 v))
    else attrs !! key.
Proof.
  unfold Panel.attrStep. simpl.
  destruct (startsWith n "__react"); simpl.
  - now case_decide.
  - case_decide as Hkey; [subst; apply lookup_insert_eq|].
    now rewrite lookup_insert_ne by congruence.
Qed.

Lemma foldl_attrSteps_related attributes : ∀ (acc acc' : gmap string string),
  (∀ key, acc !! key
          = if startsWith key "data-element-agent" then None else acc' !! key) →
  ∀ key, foldl attrStep acc attributes !! key
         = if startsWith key "data-element-agent" then None
           else foldl Panel.attrStep acc' attributes !! key.
Proof.
  induction attributes as [|[n v] attributes IH]; intros acc acc' Hacc key;
    [apply Hacc|].
  cbn [foldl]. apply IH. clear key. intros key.
  rewrite attrStep_lookup, panel_attrStep_lookup. unfold excluded.
  case_decide as Hkey; [subst n|apply Hacc].
  rewrite (Hacc key).
  destruct (startsWith key "__react"), (startsWith key "data-element-agent");
    reflexivity.
Qed.

(** X2. The two copies of the attribute sampler differ on the names that
    start with [data-element-agent] and on nothing else: the sample of the
    content script is the sample of the panel script without those names. *)
Theorem attribute_samplers_differ_on_extension_names (el : Element) (name : string) :
  getAllAttributes el !! name
  = if startsWith name "data-element-agent" then None
    else Panel.getAllAttributes el !! name.
Proof.
  unfold getAllAttributes, Panel.getAllAttributes.
  apply foldl_attrSteps_related. intros key. rewrite !lookup_empty.
  now destruct (startsWith key "data-element-agent").
Qed.

End Samplers.

Section SelectorWalk.
Import JS Dom Content Spec Scenario.

Lemma getElementInfo_settles_witness :
  ∃ requested,
    getUniqueSelector 3 docList spanOfList = Some requested
    ∧ ∃ reactInfo,
        getElementInfo 3 docList (λ _, Calls (LastError "no receiver")) spanOfList
        = Fulfilled (assemble docList spanOfList reactInfo).
Proof.
  apply (getElementInfo_settles docList 3
           (λ _, Calls (LastError "no receiver")) spanOfList).
  simpl. right. right. right. now left.
Defined.

Lemma getUniqueSelector_loop_spec d fuel : ∀ current path r,
  getUniqueSelector_loop fuel d current path = Some r →
  ∃ visited,
    r = rev (map (selectorPart d) visited) ++ path
    ∧ (body d ∉ visited)
    ∧ (visited = [] ∨ ∃ c, current = Some c ∧ upward d c visited)
    ∧ (∀ below top, visited = below ++ [top] →
         Forall (λ n, truthy (id (element d n)) = false) below)
    ∧ match last visited with
      | Some top =>
          truthy (id (element d top)) = true
          ∨ parentElement (element d top) = None
          ∨ parentElement (element d top) = Some (body d)
      | None => current = None ∨ current = Some (body d)
      end.
Proof.
  induction fuel as [|fuel IH]; intros [c|] path r; simpl.
  - case_bool_decide as Hbody; [discriminate|]. intros [= <-]. exists [].
    repeat split; [apply not_elem_of_nil|now left| |].
    + intros below top Heq. now destruct below.
    + right. f_equal. destruct (decide (c = body d)); [assumption|contradiction].
  - intros [= <-]. exists []. repeat split; [apply not_elem_of_nil|now left| |now left].
    intros below top Heq. now destruct below.
  - case_bool_decide as Hbody; cycle 1.
    { intros [= <-]. exists [].
      repeat split; [apply not_elem_of_nil|now left| |].
      + intros below top Heq. now destruct below.
      + right. f_equal. destruct (decide (c = body d)); [assumption|contradiction]. }
    destruct (truthy (id (element d c))) eqn:Hid.
    { intros [= <-]. exists [c]. simpl.
      repeat split; [now apply not_elem_of_cons; split; [congruence|apply not_elem_of_nil]
                    |right; exists c; split; [reflexivity|constructor]| |now left].
      intros below top Heq. destruct below as [|b [|b' below]]; try discriminate.
      constructor. }
    intros Hloop. apply IH in Hloop as (visited & -> & Hnot & Hup & Hids & Hstop).
    exists (c :: visited). simpl. rewrite <- app_assoc. split; [reflexivity|].
    split; [apply not_elem_of_cons; split; [congruence|assumption]|].
    split.
    { right. exists c. split; [reflexivity|]. apply upward_cons.
      destruct Hup as [->|(p & Hp & Hup)]; [now left|right; eauto]. }
    split.
    { intros below top Heq. destruct below as [|b below].
      - constructor.
      - injection Heq as <- Heq. constructor; [assumption|]. eapply Hids, Heq. }
    destruct visited as [|v visited]; simpl.
    + destruct Hstop as [Hstop|Hstop]; [right; now left|right; now right].
    + destruct (last (v :: visited)) eqn:Hlast; [exact Hstop|].
      now apply last_None in Hlast.
  - intros [= <-]. exists []. repeat split; [apply not_elem_of_nil|now left| |now left].
    intros below top Heq. now destruct below.
Qed.

(** X4. The shape of a synthesized path selector. For a node with no id and
    no test id, a selector walk that ends returns the tokens of the node and
    of its ancestors, in order from the highest, joined by [ > ]. The walk
    visits the chain of parents of the node, never the body; only the highest
    visited node can have an id, and the walk ends there, or at a node whose
    parent is missing or is the body. *)
Theorem getUniqueSelector_path_shape
    (fuel : nat) (d : Document) (el : Node) (selector : string) :
  truthy (id (element d el)) = false →
  truthyO (testIdOf (element d el)) = false →
  getUniqueSelector fuel d el = Some selector →
  ∃ visited,
    selector = join " > " (rev (map (selectorPart d) visited))
    ∧ (body d ∉ visited)
    ∧ (visited = [] ∨ upward d el visited)
    ∧ (∀ below top, visited = below ++ [top] →
         Forall (λ n, truthy (id (element d n)) = false) below)
    ∧ match last visited with
      | Some top =>
          truthy (id (element d top)) = true
          ∨ parentElement (element d top) = None
          ∨ parentElement (element d top) = Some (body d)
      | None => el = body d
      end.
Proof.
  intros Hid Htest. unfold getUniqueSelector. rewrite Hid, Htest.
  destruct (getUniqueSelector_loop fuel d (Some el) []) as [r|] eqn:Hloop;
    [|discriminate].
  intros [= <-].
  apply getUniqueSelector_loop_spec in Hloop
    as (visited & -> & Hnot & Hup & Hids & Hstop).
  exists visited. rewrite app_nil_r. split; [reflexivity|]. split; [assumption|].
  split. { destruct Hup as [->|(c & [= <-] & Hup)]; [now left|now right]. }
  split; [assumption|].
  destruct (last visited); [assumption|].
  destruct Hstop as [Hstop|[= Hstop]]; [discriminate|assumption].
Qed.

Lemma getUniqueSelector_path_shape_witness :
  ∃ visited,
    "#second > span" = join " > " (rev (map (selectorPart docList) visited))
    ∧ (visited = [] ∨ upward docList spanOfList visited).
Proof.
  destruct (getUniqueSelector_path_shape 3 docList spanOfList "#second > span"
              eq_refl eq_refl eq_refl) as (visited & Hsel & _ & Hup & _).
  exists visited. split; assumption.
Defined.

(** X6. The selector walk has no bound of its own. If the node lies in a set
    of nodes that is closed under [parentElement] and holds no body and no
    node with an id (a cycle of parent links, for one), then for every fuel
    the walk does not end, and the promise of [getElementInfo] stays
    pending. *)
Theorem getUniqueSelector_unending
    (d : Document) (unending : Node → Prop) (el : Node) :
  unending el →
  truthyO (testIdOf (element d el)) = false →
  (∀ n, unending n →
     n ≠ body d ∧ truthy (id (element d n)) = false
     ∧ ∃ p, parentElement (element d n) = Some p ∧ unending p) →
  ∀ fuel runtime,
    getUniqueSelector fuel d el = None
    ∧ getElementInfo fuel d runtime el = Pending.
Proof.
  intros Hel Htest Hclosed fuel runtime.
  assert (Hloop : ∀ fuel n path, unending n →
            getUniqueSelector_loop fuel d (Some n) path = None).
  { clear fuel. induction fuel as [|fuel IH]; intros n path Hn;
      destruct (Hclosed n Hn) as (Hbody & Hid & p & Hp & Hpin); simpl;
      rewrite bool_decide_eq_true_2 by assumption; [reflexivity|].
    rewrite Hid, Hp. now apply IH. }
  assert (Hnone : getUniqueSelector fuel d el = None).
  { unfold getUniqueSelector. destruct (Hclosed el Hel) as (_ & -> & _).
    rewrite Htest. now rewrite Hloop. }
  split; [exact Hnone|]. unfold getElementInfo. now rewrite Hnone.
Qed.

Lemma getUniqueSelector_unending_witness :
  getUniqueSelector 1000 docLoop 4 = None
  ∧ getElementInfo 1000 docLoop (λ _, Calls (Delivered None)) 4 = Pending.
Proof.
  apply (getUniqueSelector_unending docLoop (λ n, n = 4) 4 eq_refl eq_refl).
  intros n ->. split; [discriminate|]. split; [reflexivity|]. now exists 4.
Defined.

End SelectorWalk.

Section Positions.
Import JS Dom Content Spec Scenario.

Lemma indexOfFrom_absent l : ∀ i x, x ∉ l → indexOfFrom i l x = (-1)%Z.
Proof.
  induction l as [|y l IH]; intros i x Hx; [reflexivity|]. simpl.
  apply not_elem_of_cons in Hx as [Hne Hx].
  rewrite bool_decide_eq_false_2 by congruence. now apply IH.
Qed.

Lemma indexOfFrom_first pre : ∀ i x post,
  x ∉ pre → indexOfFrom i (pre ++ x :: post) x = (i + Z.of_nat (length pre))%Z.
Proof.
  induction pre as [|y pre IH]; intros i x post Hx; simpl.
  - rewrite bool_decide_eq_true_2 by reflexivity. lia.
  - apply not_elem_of_cons in Hx as [Hne Hx].
    rewrite bool_decide_eq_false_2 by congruence. rewrite IH by assumption. lia.
Qed.

Lemma indexOf_cases l x :
  ((x ∉ l) ∧ indexOf l x = (-1)%Z)
  ∨ ∃ pre post, l = pre ++ x :: post ∧ (x ∉ pre)
                ∧ indexOf l x = Z.of_nat (length pre).
Proof.
  destruct (decide (x ∈ l)) as [Hin|Hout].
  - right. apply list_elem_of_split_l in Hin as (pre & post & -> & Hpre).
    exists pre, post. split; [reflexivity|]. split; [assumption|].
    unfold indexOf. now rewrite indexOfFrom_first.
  - left. split; [assumption|]. now apply indexOfFrom_absent.
Qed.

(** X7. The position written in a token is the 1-based rank of the node among
    the children of its parent that have its tag: with [k] such children
    before it and at least one other such child, the token of the DOM path is
    the label followed by [:nth-of-type(k+1)], and so is the token of the
    selector walk for a node with no id. *)
Theorem nth_of_type_rank (d : Document) (n parent : Node) (before after : list Node) :
  parentElement (element d n) = Some parent →
  sameTagChildren d parent n = before ++ n :: after →
  n ∉ before →
  before ++ after ≠ [] →
  domPathPart d n
  = domPathLabel (element d n)
      +:+ ":nth-of-type(" +:+ ofZ (Z.of_nat (length before) + 1) +:+ ")"
  ∧ (truthy (id (element d n)) = false →
     selectorPart d n
     = toLowerCase (tagName (element d n))
         +:+ ":nth-of-type(" +:+ ofZ (Z.of_nat (length before) + 1) +:+ ")").
Proof.
  intros Hparent Hsiblings Hfirst Hothers.
  assert (Hlen : (1 <? length (before ++ n :: after)) = true).
  { apply Nat.ltb_lt. rewrite length_app. simpl.
    destruct before, after; simpl; try lia. contradiction. }
  assert (Hindex : indexOf (before ++ n :: after) n = Z.of_nat (length before)).
  { unfold indexOf. now rewrite indexOfFrom_first. }
  split.
  - unfold domPathPart. rewrite Hparent.
    change (filter _ (children (element d parent))) with (sameTagChildren d parent n).
    now rewrite Hsiblings, Hlen, Hindex.
  - intros Hid. unfold selectorPart. rewrite Hid, Hparent.
    change (filter _ (children (element d parent))) with (sameTagChildren d parent n).
    now rewrite Hsiblings, Hlen, Hindex.
Qed.

Lemma nth_of_type_rank_witness :
  domPathPart docListPlain 5 = "li:nth-of-type(3)"
  ∧ selectorPart docListPlain 5 = "li:nth-of-type(3)".
Proof.
  destruct (nth_of_type_rank docListPlain 5 2 [3; 4] [] eq_refl eq_refl)
    as [Hdom Hsel].
  - rewrite !not_elem_of_cons. repeat split; [lia|lia|apply not_elem_of_nil].
  - discriminate.
  - split; [exact Hdom|exact (Hsel eq_refl)].
Defined.

(** X8. [siblingIndex] and the children of the parent. For a node with a
    parent the index is [-1] when the node is not among the children of the
    parent, and otherwise the position of its first occurrence: counting from
    0, within the number of children, and the child at that position is the
    node. For a node with no parent the index is 0. *)
Theorem siblingIndex_locates_node (d : Document) (el : Node) (reactInfo : ReactInfo.t) :
  ∃ index,
    siblingIndex (meta (assemble d el reactInfo)) = Some index
    ∧ (parentElement (element d el) = None → index = 0%Z)
    ∧ (∀ parent, parentElement (element d el) = Some parent →
         ((el ∉ children (element d parent)) ∧ index = (-1)%Z)
         ∨ ((0 ≤ index < Z.of_nat (length (children (element d parent))))%Z
            ∧ children (element d parent) !! Z.to_nat index = Some el
            ∧ (el ∉ take (Z.to_nat index) (children (element d parent))))).
Proof.
  unfold assemble. simpl.
  destruct (parentElement (element d el)) as [parent|] eqn:Hparent.
  - exists (indexOf (children (element d parent)) el).
    split; [reflexivity|]. split; [discriminate|]. intros p [= <-].
    destruct (indexOf_cases (children (element d parent)) el)
      as [[Hout Hindex]|(pre & post & Hsplit & Hpre & Hindex)]; [now left|].
    right. rewrite Hindex, Nat2Z.id. rewrite Hsplit at 1 2 3.
    split; [rewrite length_app; simpl; lia|].
    split; [apply list_lookup_middle; reflexivity|].
    now rewrite take_app_length.
  - exists 0%Z. split; [reflexivity|]. split; [reflexivity|]. discriminate.
Qed.

End Positions.

Section FiberLookup.
Import JS Fiber Dom Background Spec Scenario.

Lemma ancestorFiber_found fuel d parent fiber attempts :
  ancestorFiber fuel d parent (Some fiber) attempts = Some fiber.
Proof. destruct fuel; [reflexivity|]. simpl. now destruct parent. Qed.

Lemma ancestorFiber_nearest d fuel : ∀ parent attempts fiber,
  fuel + attempts ≤ 10 →
  ancestorFiber fuel d parent None attempts = Some fiber
  ↔ ∃ k a p,
      parent = Some p ∧ k < fuel
      ∧ ancestor d k p = Some a ∧ fiberOfNode d a = Some fiber
      ∧ ∀ j b, j < k → ancestor d j p = Some b → fiberOfNode d b = None.
Proof.
  induction fuel as [|fuel IH]; intros parent attempts fiber Hfuel;
    cbn [ancestorFiber].
  { split; [discriminate|]. intros (k & _ & _ & _ & Hk & _). lia. }
  destruct parent as [p|]; cycle 1.
  { split; [discriminate|]. now intros (k & a & p & [=] & _). }
  destruct (Nat.ltb_spec attempts 10) as [_|Hge]; [|lia].
  change (getReactFiber d (Some p)) with (fiberOfNode d p).
  destruct (fiberOfNode d p) as [f0|] eqn:Hp.
  - rewrite ancestorFiber_found. split.
    + intros [= <-]. exists 0, p, p. repeat split; [lia|assumption|lia].
    + intros (k & a & p' & [= <-] & _ & Ha & Hfiber & Hnearer).
      destruct k as [|k].
      * simpl in Ha. injection Ha as <-. congruence.
      * specialize (Hnearer 0 p ltac:(lia) eq_refl). congruence.
  - rewrite IH by lia. split.
    + intros (k & a & q & Hq & Hk & Ha & Hfiber & Hnearer).
      exists (S k), a, p. split; [reflexivity|]. split; [lia|].
      split; [simpl; now rewrite Hq|]. split; [assumption|].
      intros [|j] b Hj Hb; simpl in Hb.
      * now injection Hb as <-.
      * rewrite Hq in Hb. eapply Hnearer; [|eassumption]. lia.
    + intros (k & a & p' & [= <-] & Hk & Ha & Hfiber & Hnearer).
      destruct k as [|k].
      { simpl in Ha. injection Ha as <-. congruence. }
      simpl in Ha. destruct (parentElement (element d p)) as [q|] eqn:Hq;
        [|discriminate].
      exists k, a, q. split; [reflexivity|]. split; [lia|].
      split; [assumption|]. split; [assumption|].
      intros j b Hj Hb. apply (Hnearer (S j) b); [lia|]. simpl. now rewrite Hq.
Qed.

(** X9. The fiber the walk starts from is the fiber link of the nearest of
    the node and its first 10 ancestors that carries one: [locateFiber]
    returns a fiber exactly when some node at most 10 [parentElement] steps
    above the node (0 steps for the node itself) has it as its first fiber
    key while no nearer node has a fiber key. A link further up is never
    found, and the search does not stop at the body. *)
Theorem locateFiber_nearest (d : Document) (el : Node) (fiber : Fiber.t) :
  locateFiber d el = Some fiber
  ↔ ∃ k a,
      k ≤ 10
      ∧ ancestor d k el = Some a ∧ fiberOfNode d a = Some fiber
      ∧ ∀ j b, j < k → ancestor d j el = Some b → fiberOfNode d b = None.
Proof.
  unfold locateFiber. change (getReactFiber d (Some el)) with (fiberOfNode d el).
  destruct (fiberOfNode d el) as [f0|] eqn:Hel.
  - split.
    + intros [= <-]. exists 0, el. repeat split; [lia|assumption|lia].
    + intros (k & a & _ & Ha & Hfiber & Hnearer). destruct k as [|k].
      * simpl in Ha. injection Ha as <-. congruence.
      * specialize (Hnearer 0 el ltac:(lia) eq_refl). congruence.
  - rewrite ancestorFiber_nearest by lia. split.
    + intros (k & a & p & Hp & Hk & Ha & Hfiber & Hnearer).
      exists (S k), a. split; [lia|]. split; [simpl; now rewrite Hp|].
      split; [assumption|].
      intros [|j] b Hj Hb; simpl in Hb.
      * now injection Hb as <-.
      * rewrite Hp in Hb. eapply Hnearer; [|eassumption]. lia.
    + intros (k & a & Hk & Ha & Hfiber & Hnearer). destruct k as [|k].
      { simpl in Ha. injection Ha as <-. congruence. }
      simpl in Ha. destruct (parentElement (element d el)) as [p|] eqn:Hp;
        [|discriminate].
      exists k, a, p. split; [reflexivity|]. split; [lia|].
      split; [assumption|]. split; [assumption|].
      intros j b Hj Hb. apply (Hnearer (S j) b); [lia|]. simpl. now rewrite Hp.
Qed.

End FiberLookup.

Section DisplayNames.
Import JS Fiber Dom Background Spec Scenario.

Lemma orElse_Some a b n :
  orElse a b = Some n → (a = Some n ∧ n ≠ EmptyString) ∨ (truthyO a = false ∧ b = Some n).
Proof.
  unfold orElse. destruct (truthyO a) eqn:Ha; [|now right].
  intros ->. left. split; [reflexivity|]. now apply truthy_spec.
Qed.

Lemma fnLabel_nonempty fn fallback n :
  (∀ m, fallback = Some m → m ≠ EmptyString) →
  fnLabel fn fallback = Some n → n ≠ EmptyString.
Proof.
  intros Hfallback. unfold fnLabel.
  intros [[_ Hn]|[_ Hn]]%orElse_Some; [assumption|now apply Hfallback].
Qed.

(** X10. The name derived for a fiber is never the empty string. The panel
    script derives names with an older copy of the function: when it derives a
    name the injected function derives the same one, and the two differ only
    on a type object with no display name and no [render] whose [$$typeof]
    marks a forward-ref or a memo, which the injected function names
    ([ForwardRef], [Memo] or the inner component) and the panel script does
    not. *)
Theorem displayName_nonempty_and_copies_agree (fiber : Fiber.t) :
  (∀ n, getComponentDisplayName fiber = Some n → n ≠ EmptyString)
  ∧ (∀ n, Panel.getComponentDisplayName fiber = Some n →
       getComponentDisplayName fiber = Some n)
  ∧ (∀ n, Panel.getComponentDisplayName fiber = None →
       getComponentDisplayName fiber = Some n →
       ∃ obj typeStr,
         type fiber = TypeObject_ obj
         ∧ truthyO (obj_displayName obj) = false
         ∧ obj_render obj = None
         ∧ obj_typeof obj = Some typeStr
         ∧ ((includes typeStr "forward_ref" = true ∧ n = "ForwardRef")
            ∨ (includes typeStr "forward_ref" = false
               ∧ includes typeStr "memo" = true
               ∧ (obj_type obj = None → n = "Memo")))).
Proof.
  unfold getComponentDisplayName, Panel.getComponentDisplayName.
  destruct (type fiber) as [|fn|obj|tag].
  - repeat split; discriminate.
  - split; [|split; [tauto|congruence]].
    intros n. apply fnLabel_nonempty. discriminate.
  - destruct (truthyO (obj_displayName obj)) eqn:Hdisplay.
    { split; [|split; [tauto|congruence]].
      intros n Hn. rewrite Hn in Hdisplay. now apply truthy_spec. }
    destruct (obj_render obj) as [render|] eqn:Hrender.
    { split; [|split; [tauto|congruence]].
      intros n. apply fnLabel_nonempty. discriminate. }
    destruct (obj_typeof obj) as [typeStr|] eqn:Htypeof; [|repeat split; discriminate].
    destruct (includes typeStr "forward_ref") eqn:Hforward.
    { split; [now intros n [= <-]|]. split; [discriminate|].
      intros n _ [= <-]. exists obj, typeStr. repeat (split; [reflexivity || assumption|]).
      left. now split. }
    destruct (includes typeStr "memo") eqn:Hmemo; [|repeat split; discriminate].
    split.
    { intros n. destruct (obj_type obj) as [inner|]; [|now intros [= <-]].
      apply fnLabel_nonempty. now intros m [= <-]. }
    split; [discriminate|].
    intros n _ Hn. exists obj, typeStr. repeat (split; [reflexivity || assumption|]).
    right. repeat (split; [reflexivity || assumption|]).
    intros Hinner. rewrite Hinner in Hn. congruence.
  - split; [|split; [tauto|congruence]].
    intros n. destruct (truthy tag) eqn:Htag; [|discriminate].
    intros [= <-]. now apply truthy_spec.
Qed.

End DisplayNames.

Section WalkResult.
Import JS Fiber Dom Background Spec Scenario.

Lemma orElse_None_idem o : orElse (orElse o None) None = orElse o None.
Proof. unfold orElse. destruct (truthyO o) eqn:H; [now rewrite H|reflexivity]. Qed.

Lemma orElseZ_None_idem o : orElseZ (orElseZ o None) None = orElseZ o None.
Proof.
  destruct o as [n|]; [|reflexivity]. simpl.
  destruct (Z.eqb n 0) eqn:H; [reflexivity|]. simpl. now rewrite H.
Qed.

Lemma reactInfoFunc_fields page selector :
  let r := reactInfoFunc page selector in
  orElse (ReactInfo.componentName r) None = ReactInfo.componentName r
  ∧ orElse (ReactInfo.sourceFile r) None = ReactInfo.sourceFile r
  ∧ orElseZ (ReactInfo.sourceLine r) None = ReactInfo.sourceLine r
  ∧ orElseZ (ReactInfo.sourceColumn r) None = ReactInfo.sourceColumn r.
Proof.
  unfold reactInfoFunc.
  destruct (querySelector page selector) as [element|]; [|now repeat split].
  destruct (locateFiber (document page) element) as [fiber|]; [|now repeat split].
  unfold summarize. simpl.
  rewrite !orElse_None_idem, !orElseZ_None_idem. now repeat split.
Qed.

(** X11. From the walk to the descriptor. When the selector walk ends, the
    background worker answers for a tab and the injected function runs, the
    descriptor of the content script carries the component data of the
    injected function for the requested selector, field for field and
    unchanged; when the sender has no tab id (or the id 0) every component
    field of the descriptor is absent. *)
Theorem descriptor_carries_walk_result
    (page : Page) (tabId : option nat) (fuel : nat) (d : Document) (el : Node)
    (requested : string) :
  Content.getUniqueSelector fuel d el = Some requested →
  ∃ info,
    Content.getElementInfo fuel d (Content.extension page tabId) el
      = Content.Fulfilled info
    ∧ match tabId with
      | Some (S _) =>
          Content.componentName (Content.meta info)
            = ReactInfo.componentName (reactInfoFunc page requested)
          ∧ Content.componentHierarchy (Content.meta info)
            = ReactInfo.componentHierarchy (reactInfoFunc page requested)
          ∧ Content.fullReactTree (Content.meta info)
            = ReactInfo.fullReactTree (reactInfoFunc page requested)
          ∧ Content.componentStack (Content.meta info)
            = ReactInfo.componentStack (reactInfoFunc page requested)
          ∧ Content.sourceFile (Content.meta info)
            = ReactInfo.sourceFile (reactInfoFunc page requested)
          ∧ Content.sourceLine (Content.meta info)
            = ReactInfo.sourceLine (reactInfoFunc page requested)
          ∧ Content.sourceColumn (Content.meta info)
            = ReactInfo.sourceColumn (reactInfoFunc page requested)
          ∧ Content.props (Content.meta info)
            = ReactInfo.props (reactInfoFunc page requested)
      | _ =>
          Content.componentName (Content.meta info) = None
          ∧ Content.componentHierarchy (Content.meta info) = None
          ∧ Content.fullReactTree (Content.meta info) = None
          ∧ Content.componentStack (Content.meta info) = None
          ∧ Content.sourceFile (Content.meta info) = None
          ∧ Content.sourceLine (Content.meta info) = None
          ∧ Content.sourceColumn (Content.meta info) = None
          ∧ Content.props (Content.meta info) = None
      end.
Proof.
  intros Hsel. unfold Content.getElementInfo. rewrite Hsel.
  unfold Content.getReactInfoFromBackground, Content.extension, Content.onResponse.
  destruct tabId as [[|n]|]; simpl.
  - eexists. split; [reflexivity|]. now repeat split.
  - eexists. split; [reflexivity|]. simpl.
    destruct (reactInfoFunc_fields page requested) as (Hname & Hfile & Hline & Hcolumn).
    cbv zeta in *. now repeat split.
  - eexists. split; [reflexivity|]. now repeat split.
Qed.

Lemma descriptor_carries_walk_result_witness :
  ∃ info,
    Content.getElementInfo 1 docB (Content.extension pageB (Some 1)) 2
      = Content.Fulfilled info
    ∧ Content.componentName (Content.meta info)
      = ReactInfo.componentName (reactInfoFunc pageB "div").
Proof.
  destruct (descriptor_carries_walk_result pageB (Some 1) 1 docB 2 "div" eq_refl)
    as (info & Hinfo & Hname & _).
  exists info. split; assumption.
Defined.

(** X12. Props are captured for the first five fibers of the chain and for
    no other. The tree is made of the entries of the first five fibers, each
    with the derived name, the debug source and the sanitized props
    ([getSafeProps]) of its fiber, followed by the entries of the next 25
    fibers, and none of the latter has props. So a first user component found
    six or more fibers up is reported without props. *)
Theorem props_only_for_first_five_fibers (fiber : Fiber.t) :
  ∃ deeper,
    (walk (Some fiber) 0 []).2
    = flat_map (entry true) (take 5 (chain fiber)) ++ deeper
    ∧ deeper = flat_map (entry false) (drop 5 (take 30 (chain fiber)))
    ∧ (∀ f hop, hop ∈ entry true f →
         getComponentDisplayName f = Some (name hop)
         ∧ source hop = getDebugSource f
         ∧ props hop = getSafeProps f)
    ∧ Forall (λ hop, props hop = None) deeper
    ∧ map name deeper
      = flat_map retained
          (map getComponentDisplayName (drop 5 (take 30 (chain fiber)))).
Proof.
  exists (flat_map (entry false) (drop 5 (take 30 (chain fiber)))).
  split; [apply walk_entries|]. split; [reflexivity|].
  split.
  { intros f hop Hhop. destruct (entry_fields true f hop Hhop) as (? & ? & ? & _).
    now repeat split. }
  generalize (drop 5 (take 30 (chain fiber))) as fibers.
  induction fibers as [|f fibers [IHprops IHnames]]; [now split|].
  cbn [flat_map map]. split.
  - apply Forall_app. split; [|exact IHprops].
    apply Forall_forall. intros hop Hhop.
    now destruct (entry_fields false f hop Hhop) as (_ & _ & ? & _).
  - rewrite map_app, IHnames. f_equal.
    unfold entry, retained. destruct (getComponentDisplayName f) as [n|];
      [|reflexivity].
    now destruct (keeps n).
Qed.

(** X13. How the lists of a result are related. In every result that has a
    full tree, [componentHierarchy] is the full tree restricted to the names
    that begin with an upper-case letter, in the same order; [componentName]
    is its first entry, if any; and the names of [componentStack] are its
    first 10 entries. *)
Theorem hierarchy_is_filtered_tree (page : Page) (selector : string) (full : list string) :
  ReactInfo.fullReactTree (reactInfoFunc page selector) = Some full →
  ReactInfo.componentHierarchy (reactInfoFunc page selector)
    = Some (filter (λ n, startsUpper n = true) full)
  ∧ ReactInfo.componentName (reactInfoFunc page selector)
    = head (filter (λ n, startsUpper n = true) full)
  ∧ option_map (map ReactInfo.stack_name)
      (ReactInfo.componentStack (reactInfoFunc page selector))
    = Some (take 10 (filter (λ n, startsUpper n = true) full)).
Proof.
  unfold reactInfoFunc.
  destruct (querySelector page selector) as [element|]; [|discriminate].
  destruct (locateFiber (document page) element) as [fiber|]; [|discriminate].
  pose proof (walk_wellFormed (Some fiber)) as Hwf.
  set (tree := (walk (Some fiber) 0 []).2) in *. clearbody tree.
  destruct (summarize_names _ Hwf) as (Hfull & Hhier & Hname).
  rewrite Hfull, Hhier, Hname. intros [= <-].
  split; [reflexivity|]. split; [reflexivity|].
  unfold summarize. cbn [ReactInfo.componentStack option_map]. f_equal.
  rewrite <- (users_names _ Hwf). rewrite map_map.
  change (λ x, ReactInfo.stack_name (stackEntry x)) with name.
  apply (fmap_take name).
Qed.

Lemma hierarchy_is_filtered_tree_witness :
  ReactInfo.componentHierarchy (reactInfoFunc pageB "div")
  = Some (filter (λ n, startsUpper n = true) ["div"; "Icon"; "Button"; "Toolbar"]).
Proof.
  apply (hierarchy_is_filtered_tree pageB "div" ["div"; "Icon"; "Button"; "Toolbar"]).
  now vm_compute.
Defined.

End WalkResult.

Section DescriptorShape.
Import JS Dom Content Spec Scenario.

Lemma lowerChar_idem c : lowerChar (lowerChar c) = lowerChar c.
Proof. destruct c as [[] [] [] [] [] [] [] []]; reflexivity. Qed.

Lemma toLowerCase_idem s : toLowerCase (toLowerCase s) = toLowerCase s.
Proof. induction s as [|c s IH]; simpl; [reflexivity|]. now rewrite lowerChar_idem, IH. Qed.

Lemma orElse_None_nonempty o : orElse o None ≠ Some EmptyString.
Proof. unfold orElse. destruct o as [[|c s]|]; simpl; congruence. Qed.

Lemma orElseZ_None_nonzero o : orElseZ o None ≠ Some 0%Z.
Proof.
  destruct o as [n|]; simpl; [|congruence].
  destruct (Z.eqb_spec n 0); congruence.
Qed.

Lemma nonEmptyArray_nonempty {A} (l : list A) : nonEmptyArray l ≠ Some [].
Proof. unfold nonEmptyArray. destruct l; simpl; congruence. Qed.

Lemma nonEmptyObject_nonempty {V} (o : gmap string V) : nonEmptyObject o ≠ Some ∅.
Proof. rewrite nonEmptyObject_spec. case_decide; congruence. Qed.

(** X14. The descriptor is bounded and compact, on both capture paths and
    whatever the component data: the text has at most 200 characters, the
    inner HTML is the first 500 characters at most of the element's, the tag
    is in lower case, the child count is the number of children, and an
    optional field is absent rather than empty (no empty test id, class list,
    attribute or style mapping, parent chain, component name or source file,
    no line or column 0). The panel script also leaves out an empty
    [componentHierarchy], [fullReactTree] or [componentStack]; the content
    script passes these three on as received. *)
Theorem descriptor_is_compact (d : Document) (el : Node) (reactInfo : ReactInfo.t) :
  compact (element d el) (meta (assemble d el reactInfo))
  ∧ componentHierarchy (meta (assemble d el reactInfo))
    = ReactInfo.componentHierarchy reactInfo
  ∧ fullReactTree (meta (assemble d el reactInfo)) = ReactInfo.fullReactTree reactInfo
  ∧ componentStack (meta (assemble d el reactInfo)) = ReactInfo.componentStack reactInfo
  ∧ ∃ info,
      Panel.capture d (Some el) = Some info
      ∧ compact (element d el) (meta info)
      ∧ componentHierarchy (meta info) ≠ Some []
      ∧ fullReactTree (meta info) ≠ Some []
      ∧ componentStack (meta info) ≠ Some [].
Proof.
  assert (Hhtml : ∀ s, ∃ html rest,
            Some (slice0 500 s) = Some html ∧ String.length html ≤ 500
            ∧ s = html +:+ rest).
  { intros s. destruct (slice0_prefix 500 s) as [rest Hrest].
    exists (slice0 500 s), rest. split; [reflexivity|].
    split; [rewrite slice0_length; lia|exact Hrest]. }
  split; [|split; [reflexivity|split; [reflexivity|split; [reflexivity|]]]].
  - unfold compact, assemble. cbn [meta text innerHTML tag testId allClasses
      allAttributes computedStyles parentChain componentName displayName
      sourceFile sourceLine sourceColumn childCount].
    split; [rewrite slice0_length; lia|]. split; [apply Hhtml|].
    split; [apply toLowerCase_idem|].
    split; [apply orElse_None_nonempty|]. split; [apply nonEmptyArray_nonempty|].
    split; [apply nonEmptyObject_nonempty|]. split; [apply nonEmptyObject_nonempty|].
    split; [apply nonEmptyArray_nonempty|]. split; [apply orElse_None_nonempty|].
    split; [reflexivity|]. split; [apply orElse_None_nonempty|].
    split; [apply orElseZ_None_nonzero|]. split; [apply orElseZ_None_nonzero|].
    reflexivity.
  - eexists. split; [reflexivity|].
    split; [|split; [apply nonEmptyArray_nonempty
                    |split; apply nonEmptyArray_nonempty]].
    unfold compact. cbn [meta text innerHTML tag testId allClasses
      allAttributes computedStyles parentChain componentName displayName
      sourceFile sourceLine sourceColumn childCount].
    split; [rewrite slice0_length; lia|]. split; [apply Hhtml|].
    split; [apply toLowerCase_idem|].
    split; [apply orElse_None_nonempty|]. split; [apply nonEmptyArray_nonempty|].
    split; [apply nonEmptyObject_nonempty|]. split; [apply nonEmptyObject_nonempty|].
    split; [apply nonEmptyArray_nonempty|]. split; [apply orElse_None_nonempty|].
    split; [reflexivity|]. split; [apply orElse_None_nonempty|].
    split; [apply orElseZ_None_nonzero|]. split; [apply orElseZ_None_nonzero|].
    reflexivity.
Qed.

End DescriptorShape.

Section SourcePath.
Import JS Text Tooltip Spec.

Lemma split_nonempty sep s : split sep s ≠ [].
Proof.
  destruct s as [|c s]; simpl; [discriminate|].
  destruct (Ascii.eqb c sep); [discriminate|]. now destruct (split sep s).
Qed.

Lemma join_cons_char sep c part parts :
  join sep (String c part :: parts) = String c (join sep (part :: parts)).
Proof. now destruct parts. Qed.

Lemma join_cons sep part p parts :
  join sep (part :: p :: parts) = part +:+ sep +:+ join sep (p :: parts).
Proof. reflexivity. Qed.

Lemma split_parts_lack_separator sep s : Forall (λ part, hasChar sep part = false) (split sep s).
Proof.
  induction s as [|c s IH]; simpl; [now repeat constructor|].
  destruct (Ascii.eqb c sep) eqn:Hc; [now constructor|].
  destruct (split sep s) as [|part parts].
  - repeat constructor. simpl. now rewrite Hc.
  - apply Forall_cons in IH as [Hpart Hparts]. constructor; [|assumption].
    simpl. now rewrite Hc.
Qed.

Lemma split_lacking sep part :
  hasChar sep part = false → split sep part = [part].
Proof.
  induction part as [|c part IH]; simpl; [reflexivity|].
  intros [Hc Hpart]%orb_false_iff. rewrite Hc. now rewrite IH.
Qed.

Lemma split_app sep part rest :
  hasChar sep part = false →
  split sep (part +:+ String sep rest) = part :: split sep rest.
Proof.
  induction part as [|c part IH]; intros Hpart.
  - change (EmptyString +:+ String sep rest) with (String sep rest).
    simpl. now rewrite Ascii.eqb_refl.
  - simpl in Hpart. apply orb_false_iff in Hpart as [Hc Hpart].
    change (String c part +:+ String sep rest) with (String c (part +:+ String sep rest)).
    simpl. rewrite Hc. now rewrite IH.
Qed.

(** Splitting and joining are inverse to each other, for any one-character
    separator. *)
Lemma split_join_round_trip (sep : ascii) :
  (∀ s, join (String sep EmptyString) (split sep s) = s)
  ∧ (∀ s, split sep s ≠ [])
  ∧ (∀ s, Forall (λ part, hasChar sep part = false) (split sep s))
  ∧ (∀ parts, parts ≠ [] → Forall (λ part, hasChar sep part = false) parts →
       split sep (join (String sep EmptyString) parts) = parts).
Proof.
  split; [|split; [apply split_nonempty|split; [apply split_parts_lack_separator|]]].
  - induction s as [|c s IH]; simpl; [reflexivity|].
    destruct (Ascii.eqb_spec c sep) as [->|_].
    + pose proof (split_nonempty sep s).
      destruct (split sep s) as [|part parts]; [contradiction|].
      rewrite join_cons. now rewrite IH.
    + pose proof (split_nonempty sep s).
      destruct (split sep s) as [|part parts]; [contradiction|].
      rewrite join_cons_char. now rewrite IH.
  - induction parts as [|part parts IH]; [contradiction|]. intros _ Hlack.
    apply Forall_cons in Hlack as [Hpart Hparts].
    destruct parts as [|p parts]; [now apply split_lacking|].
    rewrite join_cons.
    change (String sep EmptyString +:+ join (String sep EmptyString) (p :: parts))
      with (String sep (join (String sep EmptyString) (p :: parts))).
    rewrite split_app by assumption. f_equal. now apply IH.
Qed.

Lemma string_app_assoc a b c : (a +:+ b) +:+ c = a +:+ (b +:+ c).
Proof.
  induction a as [|x a IH]; [reflexivity|].
  change (String x ((a +:+ b) +:+ c) = String x (a +:+ (b +:+ c))). now rewrite IH.
Qed.

Lemma join_app sep dropped kept :
  dropped ≠ [] → kept ≠ [] →
  join sep (dropped ++ kept) = (join sep dropped +:+ sep) +:+ join sep kept.
Proof.
  intros Hdropped Hkept. induction dropped as [|part dropped IH]; [contradiction|].
  destruct dropped as [|p dropped].
  - destruct kept as [|k kept]; [contradiction|].
    change ([part] ++ k :: kept) with (part :: k :: kept).
    rewrite join_cons. simpl join at 2. now rewrite string_app_assoc.
  - change ((part :: p :: dropped) ++ kept) with (part :: p :: (dropped ++ kept)).
    rewrite !join_cons.
    change (p :: dropped ++ kept) with ((p :: dropped) ++ kept).
    rewrite IH by discriminate. now rewrite !string_app_assoc.
Qed.

Lemma findIndexFrom_cases {A} (p : A → bool) l : ∀ i,
  (Forall (λ x, p x = false) l ∧ findIndexFrom i p l = (-1)%Z)
  ∨ ∃ pre x post,
      l = pre ++ x :: post ∧ Forall (λ y, p y = false) pre ∧ p x = true
      ∧ findIndexFrom i p l = (i + Z.of_nat (length pre))%Z.
Proof.
  induction l as [|x l IH]; intros i; simpl; [left; now split|].
  destruct (p x) eqn:Hx.
  - right. exists [], x, l. simpl. repeat split; [constructor|assumption|lia].
  - destruct (IH (i + 1)%Z) as [[Hnone ->]|(pre & y & post & -> & Hpre & Hy & ->)].
    + left. split; [now constructor|reflexivity].
    + right. exists (x :: pre), y, post. simpl.
      repeat split; [now constructor|assumption|lia].
Qed.

(** X15. The path shown for a source file is a tail of the file name made of
    whole segments: the segments from the first one named [src], [app],
    [components] or [pages] on, or, when there is none, the last three
    segments (all of them when there are fewer). The file name ends with the
    result, and formatting the result again changes nothing. *)
Theorem formatSourcePath_keeps_tail (fileName : string) :
  ∃ dropped kept,
    split "/" fileName = dropped ++ kept
    ∧ kept ≠ []
    ∧ formatSourcePath fileName = join "/" kept
    ∧ endsWith fileName (formatSourcePath fileName)
    ∧ ((∃ root rest, kept = root :: rest ∧ isSourceRoot root = true
                     ∧ Forall (λ p, isSourceRoot p = false) dropped)
       ∨ (Forall (λ p, isSourceRoot p = false) (dropped ++ kept)
          ∧ length kept = Nat.min 3 (length (split "/" fileName))))
    ∧ formatSourcePath (formatSourcePath fileName) = formatSourcePath fileName.
Proof.
  destruct (split_join_round_trip "/") as (Hjoin & Hnonempty & Hlack & Hsplit).
  assert (Hends : ∀ dropped kept, split "/" fileName = dropped ++ kept → kept ≠ [] →
                  endsWith fileName (join "/" kept)).
  { intros dropped kept Hparts Hkept. rewrite <- (Hjoin fileName) at 1.
    rewrite Hparts. destruct dropped as [|part dropped]; [now exists EmptyString|].
    rewrite join_app by (discriminate || assumption). now eexists. }
  assert (Hagain : ∀ dropped kept, split "/" fileName = dropped ++ kept → kept ≠ [] →
                   split "/" (join "/" kept) = kept).
  { intros dropped kept Hparts Hkept. apply Hsplit; [assumption|].
    specialize (Hlack fileName). rewrite Hparts in Hlack.
    now apply Forall_app in Hlack as [_ Hlack]. }
  destruct (findIndexFrom_cases isSourceRoot (split "/" fileName) 0)
    as [[Hnone Hindex]|(pre & root & post & Hparts & Hpre & Hroot & Hindex)].
  - set (parts := split "/" fileName) in *.
    set (kept := drop (length parts - 3) parts).
    assert (Hres : formatSourcePath fileName = join "/" kept).
    { unfold formatSourcePath, findIndex, sliceLast. fold parts. now rewrite Hindex. }
    assert (Hparts : parts = take (length parts - 3) parts ++ kept)
      by (symmetry; apply take_drop).
    assert (Hlen : length kept = Nat.min 3 (length parts)).
    { unfold kept. rewrite length_drop. lia. }
    assert (Hkept : kept ≠ []).
    { intros Hnil. rewrite Hnil in Hlen. simpl in Hlen.
      pose proof (Hnonempty fileName) as Hne. fold parts in Hne.
      destruct parts; [contradiction|simpl in Hlen; lia]. }
    assert (Hnone' : Forall (λ p, isSourceRoot p = false) kept).
    { rewrite Hparts in Hnone. now apply Forall_app in Hnone as [_ Hnone]. }
    exists (take (length parts - 3) parts), kept. rewrite Hres.
    split; [exact Hparts|]. split; [exact Hkept|]. split; [reflexivity|].
    split; [eapply Hends; eassumption|].
    split; [right; split; [now rewrite <- Hparts|exact Hlen]|].
    unfold formatSourcePath, findIndex, sliceLast.
    rewrite (Hagain _ _ Hparts Hkept).
    destruct (findIndexFrom_cases isSourceRoot kept 0)
      as [[_ ->]|(pre & root & post & Hk & _ & Hroot & _)].
    + change (0 <=? -1)%Z with false. cbv iota.
      replace (length kept - 3) with 0 by lia. reflexivity.
    + rewrite Hk in Hnone'. apply Forall_app in Hnone' as [_ Hnone'].
      apply Forall_cons in Hnone' as [Hroot' _]. congruence.
  - assert (Hres : formatSourcePath fileName = join "/" (root :: post)).
    { unfold formatSourcePath, findIndex, sliceFrom. rewrite Hindex.
      destruct (Z.leb_spec 0 (0 + Z.of_nat (length pre))) as [_|]; [|lia].
      replace (Z.to_nat (0 + Z.of_nat (length pre))) with (length pre) by lia.
      now rewrite Hparts, drop_app_length. }
    exists pre, (root :: post). rewrite Hres.
    split; [exact Hparts|]. split; [discriminate|]. split; [reflexivity|].
    split; [eapply Hends; [eassumption|discriminate]|].
    split; [left; exists root, post; now repeat split|].
    unfold formatSourcePath, findIndex, sliceFrom.
    rewrite (Hagain _ _ Hparts ltac:(discriminate)).
    simpl. now rewrite Hroot.
Qed.

End SourcePath.

Section PortRegistry.
Import JS Text Spec Registry.

Lemma parseDigits_decimal d : ∀ acc,
  parseDigits (Some (Z.of_nat acc)) (NilEmpty.string_of_uint d)
  = Some (Z.of_nat (Nat.of_uint_acc d acc)).
Proof.
  induction d as [|d IH|d IH|d IH|d IH|d IH|d IH|d IH|d IH|d IH|d IH];
    intros acc; [reflexivity|..];
    cbn [NilEmpty.string_of_uint parseDigits Nat.of_uint_acc];
    rewrite Nat.tail_mul_spec;
    match goal with
    | |- context [digitValue ?c] =>
        let v := eval vm_compute in (digitValue c) in
        change (digitValue c) with v
    end; cbv iota; cbn [default from_option]; unfold id;
    rewrite <- IH; do 2 f_equal; lia.
Qed.

Lemma parseDigits_of_nat n :
  parseDigits None (ofNat n) = Some (Z.of_nat n).
Proof.
  unfold ofNat, NilZero.string_of_uint.
  rewrite <- (DecimalNat.Unsigned.of_to n) at 2. unfold Nat.of_uint.
  destruct (Nat.to_uint n) as [|d|d|d|d|d|d|d|d|d|d]; [reflexivity|..];
    cbn [NilEmpty.string_of_uint parseDigits Nat.of_uint_acc];
    match goal with
    | |- context [digitValue ?c] =>
        let v := eval vm_compute in (digitValue c) in
        change (digitValue c) with v
    end; cbv iota; cbn [default from_option]; unfold id;
    match goal with
    | |- parseDigits (Some ?z) _ = Some (Z.of_nat (Nat.of_uint_acc _ ?k)) =>
        replace z with (Z.of_nat k) by (rewrite ?Nat.tail_mul_spec; lia)
    end; apply parseDigits_decimal.
Qed.

Lemma decimal_first_char d :
  d ≠ Decimal.Nil →
  ∃ c rest, NilEmpty.string_of_uint d = String c rest
            ∧ (48 ≤ nat_of_ascii c ≤ 57).
Proof.
  destruct d; [contradiction|..]; intros _; eexists _, _;
    (split; [reflexivity|vm_compute; split; lia]).
Qed.

Lemma ofNat_first_char n :
  ∃ c rest, ofNat n = String c rest ∧ (48 ≤ nat_of_ascii c ≤ 57).
Proof.
  unfold ofNat, NilZero.string_of_uint.
  destruct (Nat.to_uint n) eqn:Hd;
    try (rewrite <- Hd; apply decimal_first_char; rewrite Hd; discriminate).
  eexists _, _. split; [reflexivity|vm_compute; split; lia].
Qed.

Lemma parseInt10_of_nat n :
  parseInt10 (Some (ofNat n)) = toDouble (Z.of_nat n).
Proof.
  unfold parseInt10.
  replace (toDouble (Z.of_nat n))
    with (from_option toDouble NaN (parseDigits None (ofNat n)))
    by now rewrite parseDigits_of_nat.
  destruct (ofNat_first_char n) as (c & rest & -> & Hc).
  assert (Hspace : Ascii.is_space c = false).
  { destruct c as [[] [] [] [] [] [] [] []]; try reflexivity; vm_compute in Hc; lia. }
  cbn [trimStart]. rewrite Hspace.
  destruct c as [[] [] [] [] [] [] [] []]; try reflexivity; vm_compute in Hc; lia.
Qed.

Lemma toDouble_safe z : (Z.abs z < 2 ^ 53)%Z → toDouble z = Finite z.
Proof.
  intros Hsafe. unfold toDouble. cbv zeta.
  assert (Hlog : (Z.log2 (Z.abs z) - 52 <=? 0)%Z = true).
  { apply Z.leb_le. destruct (Z.eq_dec (Z.abs z) 0%Z) as [->|Hnz]; [now vm_compute|].
    assert (Z.log2 (Z.abs z) < 53)%Z by (apply Z.log2_lt_pow2; lia). lia. }
  now rewrite Hlog.
Qed.

Lemma prefix_app p s : String.prefix p (p +:+ s) = true.
Proof.
  induction p as [|c p IH]; [now destruct s|].
  change (String c p +:+ s) with (String c (p +:+ s)). simpl.
  destruct (ascii_dec c c); [exact IH|contradiction].
Qed.

Lemma decimal_lacks_dash d : hasChar "-" (NilEmpty.string_of_uint d) = false.
Proof. induction d; simpl; [reflexivity|..]; assumption. Qed.

Lemma ofNat_lacks_dash n : hasChar "-" (ofNat n) = false.
Proof.
  unfold ofNat, NilZero.string_of_uint.
  destruct (Nat.to_uint n) eqn:Hd; [reflexivity|..]; rewrite <- Hd;
    apply decimal_lacks_dash.
Qed.

Lemma isDevtools_portName tabId ident :
  isDevtools {| name := PanelApp.portName tabId; ident := ident |} = true.
Proof. unfold isDevtools, startsWith, PanelApp.portName. cbn [name]. apply prefix_app. Qed.

Lemma tabIdOf_portName tabId ident :
  (Z.of_nat tabId < 2 ^ 53)%Z →
  tabIdOf {| name := PanelApp.portName tabId; ident := ident |}
  = Finite (Z.of_nat tabId).
Proof.
  intros Hsafe.
  unfold tabIdOf, PanelApp.portName. cbn [name].
  change ("devtools-" +:+ ofNat tabId)
    with ("devtools" +:+ String "-" (ofNat tabId)).
  rewrite split_app by reflexivity.
  rewrite (split_lacking "-" (ofNat tabId)) by apply ofNat_lacks_dash.
  cbn [lookup list_lookup]. rewrite parseInt10_of_nat.
  apply toDouble_safe. lia.
Qed.

(** X16. The name the panel connects with and the tab id the background
    worker reads back from it. For every tab id below [2^53], the port named
    [devtools-<id>] is taken for a DevTools port and is registered under that
    same id: splitting the name at the dashes and parsing the second part as a
    decimal integer gives the id back. *)
Theorem port_name_round_trip (tabId ident : nat) (ports : gmap Number Port) :
  (Z.of_nat tabId < 2 ^ 53)%Z →
  let port := {| name := PanelApp.portName tabId; ident := ident |} in
  isDevtools port = true
  ∧ tabIdOf port = Finite (Z.of_nat tabId)
  ∧ onConnect port ports !! Finite (Z.of_nat tabId) = Some port.
Proof.
  intros Hsafe port.
  pose proof (isDevtools_portName tabId ident) as Hdev.
  pose proof (tabIdOf_portName tabId ident Hsafe) as Hid.
  fold port in Hdev, Hid.
  split; [exact Hdev|]. split; [exact Hid|].
  unfold onConnect. rewrite Hdev, Hid. apply lookup_insert_eq.
Qed.

Lemma port_name_round_trip_witness :
  let port := {| name := "devtools-1024"; ident := 1 |} in
  isDevtools port = true
  ∧ tabIdOf port = Finite 1024
  ∧ onConnect port ∅ !! Finite 1024 = Some port.
Proof. apply (port_name_round_trip 1024 1 ∅). reflexivity. Defined.

(** Above [2^53] the id read back is the nearest double, not the id
    written. *)
Example large_tab_id_is_rounded :
  tabIdOf {| name := "devtools-9007199254740993"; ident := 1 |}
  = Finite 9007199254740992.
Proof. reflexivity. Qed.

(** X17. The registry entry of a tab belongs to the port that connected last,
    but the disconnect listener of any port of that tab removes it. When two
    ports of the same tab (id above 0 and below [2^53]) have connected, a pick
    in that tab is posted to the newer one, or, if posting throws, the entry
    is deleted; once the older port disconnects the tab has no entry, and a
    pick in the tab is posted to no port although the newer port never
    disconnected. *)
Theorem stale_disconnect_unregisters_newer_port (tabId a b : nat)
    (postThrows : Port → bool) (ports : gmap Number Port) :
  0 < tabId →
  (Z.of_nat tabId < 2 ^ 53)%Z →
  let tab := Finite (Z.of_nat tabId) in
  let older := {| name := PanelApp.portName tabId; ident := a |} in
  let newer := {| name := PanelApp.portName tabId; ident := b |} in
  let connected := onConnect newer (onConnect older ports) in
  let after := onDisconnect older connected in
  connected !! tab = Some newer
  ∧ onPicked (Some tab) postThrows connected
    = (if postThrows newer then (delete tab connected, None)
       else (connected, Some newer))
  ∧ after !! tab = None
  ∧ onPicked (Some tab) postThrows after = (after, None).
Proof.
  intros Hpos Hsafe tab older newer connected after.
  assert (Htab : truthyTab tab = true).
  { unfold truthyTab, tab. apply negb_true_iff, Z.eqb_neq. lia. }
  assert (Hconn : connected !! tab = Some newer).
  { unfold connected, onConnect, newer at 1 2.
    rewrite isDevtools_portName, tabIdOf_portName by exact Hsafe.
    apply lookup_insert_eq. }
  assert (Hafter : after !! tab = None).
  { unfold after, onDisconnect, older.
    rewrite isDevtools_portName, tabIdOf_portName by exact Hsafe.
    apply lookup_delete_eq. }
  split; [exact Hconn|]. split.
  { unfold onPicked. rewrite Htab, Hconn. reflexivity. }
  split; [exact Hafter|].
  unfold onPicked. rewrite Htab, Hafter. reflexivity.
Qed.

Lemma stale_disconnect_unregisters_newer_port_witness :
  let tab := Finite 7 in
  let older := {| name := "devtools-7"; ident := 1 |} in
  let newer := {| name := "devtools-7"; ident := 2 |} in
  let connected := onConnect newer (onConnect older ∅) in
  let after := onDisconnect older connected in
  connected !! tab = Some newer
  ∧ onPicked (Some tab) (λ _, false) connected = (connected, Some newer)
  ∧ after !! tab = None
  ∧ onPicked (Some tab) (λ _, false) after = (after, None).
Proof.
  apply (stale_disconnect_unregisters_newer_port 7 1 2 (λ _, false) ∅);
    [lia|reflexivity].
Defined.

End PortRegistry.

Section BranchName.
Import JS Spec PanelApp.

Lemma slice0_short n : ∀ s, String.length s ≤ n → slice0 n s = s.
Proof.
  induction n as [|n IH]; intros [|c s] Hlen; simpl in *; try reflexivity; try lia.
  f_equal. apply IH. lia.
Qed.

Lemma allChars_slice0 p n : ∀ s, allChars p s = true → allChars p (slice0 n s) = true.
Proof.
  induction n as [|n IH]; intros [|c s]; simpl; try reflexivity.
  intros [Hc Hs]%andb_true_iff. rewrite Hc. now apply IH.
Qed.

Lemma startsDash_slice0 n s : startsDash (slice0 n s) = true → startsDash s = true.
Proof. destruct n, s; simpl; congruence. Qed.

Lemma noDoubleDash_slice0 n : ∀ s,
  noDoubleDash s = true → noDoubleDash (slice0 n s) = true.
Proof.
  induction n as [|n IH]; intros [|c s]; simpl; try reflexivity.
  intros [Hc Hs]%andb_true_iff. rewrite (IH s Hs), andb_true_r.
  apply negb_true_iff. apply negb_true_iff in Hc.
  destruct (isDash c); [|reflexivity]. simpl in *.
  destruct (startsDash (slice0 n s)) eqn:Hd; [|reflexivity].
  apply startsDash_slice0 in Hd. congruence.
Qed.

Lemma isLowerAlnum_not_dash c : isLowerAlnum c = true → isDash c = false.
Proof.
  unfold isDash. destruct (Ascii.eqb_spec c "-") as [->|]; [|reflexivity].
  vm_compute. congruence.
Qed.

Lemma isLowerAlnum_not_upper c : isLowerAlnum c = true → isUpper c = false.
Proof.
  unfold isLowerAlnum, isUpper. cbv zeta. intros H.
  apply andb_false_iff.
  apply orb_true_iff in H as [[H1 H2]%andb_true_iff|[H1 H2]%andb_true_iff];
    apply Nat.leb_le in H1, H2.
  - right. apply Nat.leb_gt. lia.
  - left. apply Nat.leb_gt. lia.
Qed.

Lemma replaceRuns_chars : ∀ s inRun, allChars slugChar (replaceRuns inRun s) = true.
Proof.
  induction s as [|c s IH]; intros inRun; [reflexivity|].
  cbn [replaceRuns]. destruct (isLowerAlnum c) eqn:Hc.
  - cbn [allChars]. unfold slugChar at 1. now rewrite Hc, IH.
  - destruct inRun; [apply IH|]. cbn [allChars]. now rewrite IH.
Qed.

Lemma replaceRuns_dashes : ∀ s inRun,
  noDoubleDash (replaceRuns inRun s) = true
  ∧ (inRun = true → startsDash (replaceRuns inRun s) = false).
Proof.
  induction s as [|c s IH]; intros inRun; [now split|].
  cbn [replaceRuns]. destruct (isLowerAlnum c) eqn:Hc.
  - destruct (IH false) as [Hn _]. split.
    + cbn [noDoubleDash]. now rewrite (isLowerAlnum_not_dash c Hc), Hn.
    + intros _. cbn [startsDash]. now apply isLowerAlnum_not_dash.
  - destruct (IH true) as [Hn Hs]. destruct inRun.
    + split; [exact Hn|]. intros _. now apply Hs.
    + split; [|discriminate]. cbn [noDoubleDash].
      now rewrite Hs, andb_false_r, Hn.
Qed.

Lemma toLowerCase_slug : ∀ s, allChars slugChar s = true → toLowerCase s = s.
Proof.
  induction s as [|c s IH]; [reflexivity|].
  cbn [allChars toLowerCase]. intros [Hc Hs]%andb_true_iff.
  rewrite (IH Hs). f_equal. unfold lowerChar.
  apply orb_true_iff in Hc as [Hc|Hc].
  - now rewrite (isLowerAlnum_not_upper c Hc).
  - unfold isDash in Hc. apply Ascii.eqb_eq in Hc. now subst c.
Qed.

Lemma replaceRuns_slug : ∀ s inRun,
  allChars slugChar s = true → noDoubleDash s = true →
  (inRun = true → startsDash s = false) →
  replaceRuns inRun s = s.
Proof.
  induction s as [|c s IH]; intros inRun; [reflexivity|].
  cbn [allChars noDoubleDash replaceRuns startsDash].
  intros [Hc Hs]%andb_true_iff [Hd Hn]%andb_true_iff Hrun.
  destruct (isLowerAlnum c) eqn:Halnum.
  - f_equal. now apply IH.
  - unfold slugChar in Hc. rewrite Halnum in Hc. simpl in Hc.
    destruct inRun; [specialize (Hrun eq_refl); congruence|].
    rewrite Hc in Hd. simpl in Hd. apply negb_true_iff in Hd.
    unfold isDash in Hc. apply Ascii.eqb_eq in Hc. subst c.
    f_equal. apply IH; auto.
Qed.

Lemma allChars_weaken (p q : ascii → bool) :
  (∀ c, p c = true → q c = true) →
  ∀ s, allChars p s = true → allChars q s = true.
Proof.
  intros Hpq. induction s as [|c s IH]; [reflexivity|].
  cbn [allChars]. intros [Hc Hs]%andb_true_iff.
  now rewrite (Hpq c Hc), (IH Hs).
Qed.

Lemma noDoubleDash_alnum : ∀ s,
  allChars isLowerAlnum s = true → noDoubleDash s = true.
Proof.
  induction s as [|c s IH]; [reflexivity|].
  cbn [allChars noDoubleDash]. intros [Hc Hs]%andb_true_iff.
  now rewrite (isLowerAlnum_not_dash c Hc), (IH Hs).
Qed.

(** X18. The branch name made from a PR title. For every formatted title, the
    slug put after [element-agent/] has at most 40 characters, each of them a
    lower-case letter, a digit or a dash, and no two dashes in a row; making
    the slug of a slug changes nothing, and a title made of lower-case letters
    and digits only is kept, cut to its first 40 characters. *)
Theorem branchSlug_shape (formatted : string) :
  String.length (branchSlug formatted) ≤ 40
  ∧ allChars slugChar (branchSlug formatted) = true
  ∧ noDoubleDash (branchSlug formatted) = true
  ∧ branchSlug (branchSlug formatted) = branchSlug formatted
  ∧ (allChars isLowerAlnum formatted = true →
     branchSlug formatted = slice0 40 formatted).
Proof.
  assert (Hlen : String.length (branchSlug formatted) ≤ 40)
    by (unfold branchSlug; rewrite slice0_length; lia).
  assert (Hchars : allChars slugChar (branchSlug formatted) = true)
    by apply allChars_slice0, replaceRuns_chars.
  assert (Hdash : noDoubleDash (branchSlug formatted) = true)
    by apply noDoubleDash_slice0, replaceRuns_dashes.
  assert (Hfix : ∀ s, allChars slugChar s = true → noDoubleDash s = true →
                      branchSlug s = slice0 40 s).
  { intros s Hs Hn. unfold branchSlug.
    rewrite (toLowerCase_slug s Hs).
    now rewrite (replaceRuns_slug s false Hs Hn). }
  repeat split; try assumption.
  - rewrite (Hfix _ Hchars Hdash). now apply slice0_short.
  - intros Halnum. apply Hfix.
    + revert Halnum. apply allChars_weaken. intros c Hc.
      unfold slugChar. now rewrite Hc.
    + now apply noDoubleDash_alnum.
Qed.

(** The default title format leaves a leading dash in the slug. *)
Example branchSlug_default_format :
  branchSlug "[ElementAgent] Fix the Save button!" = "-elementagent-fix-the-save-button-".
Proof. reflexivity. Qed.

End BranchName.
